(** * Pumplotto backend: a shallow embedding of [server.js]

    The server is an Express application over a Mongoose document store.
    Handlers are embedded as functions in a state-and-exception monad over a
    [World] that holds the process state ([isConnected], the console), the
    document store, and the outcomes of the asynchronous calls still to come.
    A handler that returns has sent its response; a handler that throws is an
    [async] function whose promise is rejected before any response is sent.

    Embedded: [connectDB], [authenticateJWT], [initializeAdmin] and the routes
    [POST /api/authenticate], [GET /api/verify-token], [GET /api/presale-end],
    [POST] and [GET /api/progress-bar], [POST /api/wallet-address] and
    [GET /api/init-admin].  Requests are handled one after the other; the
    call of [connectDB] at load time (line 27) is covered by taking the
    initial world arbitrary, connected or not. *)

From Stdlib Require Import String Ascii List Bool Arith Lia ZArith Floats.
From Stdlib Require Uint63.
Import ListNotations.
Set Warnings "-register-all".
Open Scope string_scope.
Open Scope list_scope.

(** ** JavaScript numbers

    A JavaScript Number is an IEEE 754 binary64 value: Rocq's primitive
    [float].  [Math.max] and [Math.min] follow the ECMAScript algorithm: any
    NaN argument gives NaN, and the two zeros are ordered [-0 < +0]. *)
Module JS.

Definition Number := float.

Definition is_pos_zero (x : Number) : bool :=
  match classify x with PZero => true | _ => false end.

Definition is_neg_zero (x : Number) : bool :=
  match classify x with NZero => true | _ => false end.

Fixpoint max_loop (highest : Number) (coerced : list Number) : Number :=
  match coerced with
  | [] => highest
  | number :: rest =>
      if is_nan number then nan
      else if is_pos_zero number && is_neg_zero highest then max_loop zero rest
      else if (highest <? number)%float then max_loop number rest
      else max_loop highest rest
  end.

Fixpoint min_loop (lowest : Number) (coerced : list Number) : Number :=
  match coerced with
  | [] => lowest
  | number :: rest =>
      if is_nan number then nan
      else if is_neg_zero number && is_pos_zero lowest then min_loop neg_zero rest
      else if (number <? lowest)%float then min_loop number rest
      else min_loop lowest rest
  end.

(** [Math.max(a, b)] and [Math.min(a, b)]. *)
Definition Math_max (a b : Number) : Number := max_loop neg_infinity [a; b].
Definition Math_min (a b : Number) : Number := min_loop infinity [a; b].

(** The values a parsed JSON body can hold, and [undefined] for a field that
    is absent. *)
Inductive Value : Type :=
| undefined
| null
| boolean (b : bool)
| number (x : Number)
| str (s : string)
| array (xs : list Value)
| object (props : list (string * Value)).

(** [ToBoolean]: the falsy values are [undefined], [null], [false], the two
    zeros, NaN and the empty string. *)
Definition ToBoolean (v : Value) : bool :=
  match v with
  | undefined | null => false
  | boolean b => b
  | number x => negb (is_nan x || is_zero x)
  | str s => negb (String.eqb s "")
  | array _ | object _ => true
  end.

Definition is_undefined (v : Value) : bool :=
  match v with undefined => true | _ => false end.

Fixpoint get (key : string) (props : list (string * Value)) : Value :=
  match props with
  | [] => undefined
  | (k, v) :: rest => if String.eqb k key then v else get key rest
  end.

(** [s.split(sep)] for a one-character separator; the result is never empty. *)
Fixpoint split (sep : ascii) (s : string) : list string :=
  match s with
  | EmptyString => [EmptyString]
  | String c rest =>
      if Ascii.eqb c sep then EmptyString :: split sep rest
      else match split sep rest with
           | [] => [String c EmptyString]
           | word :: words => String c word :: words
           end
  end.

End JS.

(** The clamp of the progress-bar handler, line 197:
    [Math.max(0, Math.min(Number(value), 100))], applied to the parsed number. *)
Definition clamp (x : JS.Number) : JS.Number :=
  JS.Math_max 0%float (JS.Math_min x 100%float).

(** The clamp in the words of the specification: below 0 becomes 0, above 100
    becomes 100, anything in between is kept. *)
Definition clamp_spec (x : JS.Number) : JS.Number :=
  if (x <? 0)%float then 0%float
  else if (100 <? x)%float then 100%float
  else x.

(** ** The runtime libraries

    What [server.js] imports and does not define: the number parser behind
    [Number(...)], [String.prototype.toLowerCase], bcrypt and jsonwebtoken.
    The embedding is parametric in them. *)
Record Runtime : Type := {
  (** [Number(s)] for a string. *)
  StringToNumber : string -> JS.Number;
  (** [Number(v)] for an array or an object (through [ToPrimitive]). *)
  ObjectToNumber : JS.Value -> JS.Number;
  toLowerCase : string -> string;
  (** [bcrypt.hash(data, rounds)] with the salt it drew. *)
  bcrypt_hash : string -> nat -> nat -> string;
  (** [bcrypt.compare(data, encrypted)]. *)
  bcrypt_compare : string -> string -> bool;
  (** [jwt.sign({ admin: true }, key, { expiresIn: '1h' })] at a given time. *)
  jwt_sign : string -> nat -> string;
  (** [jwt.verify(token, key)] at a given time: [true] when it returns,
      [false] when it throws (bad signature, expired, malformed). *)
  jwt_verify : string -> string -> nat -> bool
}.

(** ** Configuration, documents and the store *)

(** [process.env], the three variables the server reads. *)
Record Env : Type := {
  Database_URL : option string;
  ADMIN_PASSWORD : option string;
  JWT_SECRET : option string
}.

(** [adminSchema]: [password: String], [initialized: Boolean, default false]. *)
Record AdminDoc : Type := {
  admin_id : nat;
  password : option string;
  initialized : bool
}.

(** [presaleEndSchema], with the timestamps Mongoose maintains. *)
Record PresaleEndDoc : Type := {
  presale_id : nat;
  endDateTime : JS.Number;
  presale_createdAt : nat;
  presale_updatedAt : nat
}.

(** [progressBarSchema]. *)
Record ProgressBarDoc : Type := {
  progress_id : nat;
  value : JS.Number;
  progress_createdAt : nat;
  progress_updatedAt : nat
}.

(** [walletAddressSchema]. *)
Record WalletAddressDoc : Type := {
  wallet_id : nat;
  address : string;
  wallet_createdAt : nat;
  wallet_updatedAt : nat
}.

(** The four collections, each in natural (insertion) order, and the next
    fresh [_id]. *)
Record Store : Type := {
  Admin : list AdminDoc;
  PresaleEnd : list PresaleEndDoc;
  ProgressBar : list ProgressBarDoc;
  WalletAddress : list WalletAddressDoc;
  next_id : nat
}.

Inductive Model : Type := MAdmin | MPresaleEnd | MProgressBar | MWalletAddress.

(** The fields a handler hands to a store write. *)
Inductive Payload : Type :=
| AdminFields (password : string) (initialized : bool)
| ProgressFields (value : JS.Number)
| WalletFields (address : string).

(** The calls the process makes to the outside, recorded in order. *)
Inductive Event : Type :=
| Connect (uri : option string)
| Query (m : Model)
| Write (m : Model) (fields : Payload).

(** How an awaited call settles. *)
Inductive Outcome : Type :=
| Resolves
| Rejects (reason : string).

(** ** The world a handler runs in *)
Record World : Type := {
  env : Env;
  (** [let isConnected;] of line 15: [undefined] is read as [false]. *)
  isConnected : bool;
  db : Store;
  (** [Date.now()]. *)
  now : nat;
  (** the source of bcrypt salts. *)
  entropy : nat;
  (** how the awaited calls to come settle, in order; past its end every
      call resolves. *)
  pending : list Outcome;
  (** lines written by [console.log] and [console.error]. *)
  console : list string;
  trace : list Event
}.

Definition set_isConnected (b : bool) (w : World) : World :=
  {| env := env w; isConnected := b; db := db w; now := now w;
     entropy := entropy w; pending := pending w; console := console w;
     trace := trace w |}.

Definition set_db (s : Store) (w : World) : World :=
  {| env := env w; isConnected := isConnected w; db := s; now := now w;
     entropy := entropy w; pending := pending w; console := console w;
     trace := trace w |}.

Definition set_entropy (n : nat) (w : World) : World :=
  {| env := env w; isConnected := isConnected w; db := db w; now := now w;
     entropy := n; pending := pending w; console := console w;
     trace := trace w |}.

Definition set_pending (p : list Outcome) (w : World) : World :=
  {| env := env w; isConnected := isConnected w; db := db w; now := now w;
     entropy := entropy w; pending := p; console := console w;
     trace := trace w |}.

Definition set_console (c : list string) (w : World) : World :=
  {| env := env w; isConnected := isConnected w; db := db w; now := now w;
     entropy := entropy w; pending := pending w; console := c;
     trace := trace w |}.

Definition set_trace (t : list Event) (w : World) : World :=
  {| env := env w; isConnected := isConnected w; db := db w; now := now w;
     entropy := entropy w; pending := pending w; console := console w;
     trace := t |}.

(** ** The monad of handlers: state over [World], with exceptions *)
Inductive Result (A : Type) : Type :=
| Returned (a : A)
| Thrown (e : string).
Arguments Returned {A} a.
Arguments Thrown {A} e.

Definition M (A : Type) : Type := World -> Result A * World.

Definition ret {A : Type} (a : A) : M A := fun w => (Returned a, w).

Definition throw {A : Type} (e : string) : M A := fun w => (Thrown e, w).

Definition bind {A B : Type} (c : M A) (k : A -> M B) : M B :=
  fun w =>
    match c w with
    | (Returned a, w') => k a w'
    | (Thrown e, w') => (Thrown e, w')
    end.

(** [try { body } catch (err) { handler }]. *)
Definition try_catch {A : Type} (body : M A) (handler : string -> M A) : M A :=
  fun w =>
    match body w with
    | (Returned a, w') => (Returned a, w')
    | (Thrown e, w') => handler e w'
    end.

Declare Scope js_scope.
Delimit Scope js_scope with js.
Notation "x <- c ;; k" := (bind c (fun x => k))
  (at level 61, c at next level, right associativity) : js_scope.
Notation "c ;; k" := (bind c (fun _ => k))
  (at level 61, right associativity) : js_scope.
Open Scope js_scope.

Definition gets {A : Type} (f : World -> A) : M A := fun w => (Returned (f w), w).

Definition modify (f : World -> World) : M unit := fun w => (Returned tt, f w).

(** An awaited call settles as the head of [pending] says. *)
Definition settle : M unit :=
  fun w =>
    match pending w with
    | [] => (Returned tt, w)
    | Resolves :: rest => (Returned tt, set_pending rest w)
    | Rejects reason :: rest => (Thrown reason, set_pending rest w)
    end.

Definition emit (e : Event) : M unit :=
  modify (fun w => set_trace (trace w ++ [e]) w).

Definition console_log (line : string) : M unit :=
  modify (fun w => set_console (console w ++ [line]) w).

Definition console_error (line : string) : M unit := console_log line.

(** ** HTTP requests and responses *)
Record Request : Type := {
  (** [req.headers.authorization]. *)
  authorization : option string;
  (** [req.body], the object [express.json()] parsed, as its properties. *)
  req_body : list (string * JS.Value)
}.

Inductive Doc : Type :=
| AdminRecord (d : AdminDoc)
| PresaleEndRecord (d : PresaleEndDoc)
| ProgressBarRecord (d : ProgressBarDoc)
| WalletAddressRecord (d : WalletAddressDoc).

Inductive Body : Type :=
| Message (message : string)
| Token (token : string)
| MessageData (message : string) (data : Doc)
| Document (d : Doc)
| Text (s : string).

Record Response : Type := {
  status : nat;
  res_body : Body
}.

(** [res.status(code).json(body)]; [res.json] and [res.send] answer 200. *)
Definition respond (code : nat) (b : Body) : M Response :=
  ret {| status := code; res_body := b |}.

(** ** The Mongoose models

    Every call is recorded in the trace and then settles.  A write that
    Mongoose refuses (a validation or cast error, a lost connection) is a
    rejection, and leaves the collection as it was. *)

(** [findOne()] without a filter: the first document in natural order. *)
Definition Admin_findOne : M (option AdminDoc) :=
  emit (Query MAdmin) ;; settle ;;
  s <- gets db ;;
  ret (hd_error (Admin s)).

(** [updateOne({ _id })]: the first document with that [_id] is replaced. *)
Fixpoint replace_admin (d : AdminDoc) (l : list AdminDoc) : list AdminDoc :=
  match l with
  | [] => []
  | x :: rest =>
      if (admin_id x =? admin_id d)%nat then d :: rest else x :: replace_admin d rest
  end.

Definition set_Admin (l : list AdminDoc) (s : Store) : Store :=
  {| Admin := l; PresaleEnd := PresaleEnd s; ProgressBar := ProgressBar s;
     WalletAddress := WalletAddress s; next_id := next_id s |}.

Definition set_ProgressBar (l : list ProgressBarDoc) (s : Store) : Store :=
  {| Admin := Admin s; PresaleEnd := PresaleEnd s; ProgressBar := l;
     WalletAddress := WalletAddress s; next_id := next_id s |}.

Definition set_WalletAddress (l : list WalletAddressDoc) (s : Store) : Store :=
  {| Admin := Admin s; PresaleEnd := PresaleEnd s; ProgressBar := ProgressBar s;
     WalletAddress := l; next_id := next_id s |}.

Definition bump_next_id (s : Store) : Store :=
  {| Admin := Admin s; PresaleEnd := PresaleEnd s; ProgressBar := ProgressBar s;
     WalletAddress := WalletAddress s; next_id := S (next_id s) |}.

(** [existingAdmin.password = p; existingAdmin.initialized = i;
    await existingAdmin.save()]. *)
Definition Admin_save (d : AdminDoc) (p : string) (i : bool) : M AdminDoc :=
  let d' := {| admin_id := admin_id d; password := Some p; initialized := i |} in
  emit (Write MAdmin (AdminFields p i)) ;; settle ;;
  modify (fun w => set_db (set_Admin (replace_admin d' (Admin (db w))) (db w)) w) ;;
  ret d'.

(** [await new Admin({ password: p, initialized: i }).save()]. *)
Definition Admin_create (p : string) (i : bool) : M AdminDoc :=
  emit (Write MAdmin (AdminFields p i)) ;; settle ;;
  s <- gets db ;;
  let d := {| admin_id := next_id s; password := Some p; initialized := i |} in
  modify (set_db (bump_next_id (set_Admin (Admin s ++ [d]) s))) ;;
  ret d.

(** [.sort({ createdAt: -1 })] followed by [findOne]: a document with the
    greatest [createdAt], the earliest in natural order among equals. *)
Fixpoint latest {A : Type} (createdAt : A -> nat) (l : list A) : option A :=
  match l with
  | [] => None
  | d :: rest =>
      match latest createdAt rest with
      | Some d' => if (createdAt d <? createdAt d')%nat then Some d' else Some d
      | None => Some d
      end
  end.

Definition PresaleEnd_findOne_latest : M (option PresaleEndDoc) :=
  emit (Query MPresaleEnd) ;; settle ;;
  s <- gets db ;;
  ret (latest presale_createdAt (PresaleEnd s)).

Definition ProgressBar_findOne_latest : M (option ProgressBarDoc) :=
  emit (Query MProgressBar) ;; settle ;;
  s <- gets db ;;
  ret (latest progress_createdAt (ProgressBar s)).

Definition ProgressBar_findOne : M (option ProgressBarDoc) :=
  emit (Query MProgressBar) ;; settle ;;
  s <- gets db ;;
  ret (hd_error (ProgressBar s)).

Fixpoint replace_progress (d : ProgressBarDoc) (l : list ProgressBarDoc)
  : list ProgressBarDoc :=
  match l with
  | [] => []
  | x :: rest =>
      if (progress_id x =? progress_id d)%nat then d :: rest
      else x :: replace_progress d rest
  end.

(** [record.value = v; await record.save()]. *)
Definition ProgressBar_save (d : ProgressBarDoc) (v : JS.Number) : M ProgressBarDoc :=
  emit (Write MProgressBar (ProgressFields v)) ;; settle ;;
  t <- gets now ;;
  let d' := {| progress_id := progress_id d; value := v;
               progress_createdAt := progress_createdAt d;
               progress_updatedAt := t |} in
  modify (fun w =>
    set_db (set_ProgressBar (replace_progress d' (ProgressBar (db w))) (db w)) w) ;;
  ret d'.

(** [await ProgressBar.create({ value: v })]. *)
Definition ProgressBar_create (v : JS.Number) : M ProgressBarDoc :=
  emit (Write MProgressBar (ProgressFields v)) ;; settle ;;
  t <- gets now ;;
  s <- gets db ;;
  let d := {| progress_id := next_id s; value := v;
              progress_createdAt := t; progress_updatedAt := t |} in
  modify (set_db (bump_next_id (set_ProgressBar (ProgressBar s ++ [d]) s))) ;;
  ret d.

(** [await WalletAddress.findOne({ address: a })]. *)
Definition WalletAddress_findOne (a : string) : M (option WalletAddressDoc) :=
  emit (Query MWalletAddress) ;; settle ;;
  s <- gets db ;;
  ret (find (fun d => String.eqb (address d) a) (WalletAddress s)).

(** [await WalletAddress.create({ address: a })]. *)
Definition WalletAddress_create (a : string) : M WalletAddressDoc :=
  emit (Write MWalletAddress (WalletFields a)) ;; settle ;;
  t <- gets now ;;
  s <- gets db ;;
  let d := {| wallet_id := next_id s; address := a;
              wallet_createdAt := t; wallet_updatedAt := t |} in
  modify (set_db (bump_next_id (set_WalletAddress (WalletAddress s ++ [d]) s))) ;;
  ret d.

(** ** The connection manager (lines 15-24) *)

(** [await mongoose.connect(uri, ...)]. *)
Definition mongoose_connect (uri : option string) : M unit :=
  emit (Connect uri) ;; settle.

Definition connectDB : M unit :=
  connected <- gets isConnected ;;
  if connected then ret tt
  else
    uri <- gets (fun w => Database_URL (env w)) ;;
    mongoose_connect uri ;;
    modify (set_isConnected true) ;;
    console_log "MongoDB Connected".

(** ** The server, over a runtime *)
Section Server.

Variable rt : Runtime.

(** [Number(v)]. *)
Definition ToNumber (v : JS.Value) : JS.Number :=
  match v with
  | JS.undefined => nan
  | JS.null => 0%float
  | JS.boolean true => 1%float
  | JS.boolean false => 0%float
  | JS.number x => x
  | JS.str s => StringToNumber rt s
  | JS.array _ | JS.object _ => ObjectToNumber rt v
  end.

(** [v.length < 8] for a truthy [v].  A string and an array have a length;
    an object has the property it carries, compared as a number; a number or
    a boolean has none, and [undefined < 8] is [false]. *)
Definition length_lt_8 (v : JS.Value) : bool :=
  match v with
  | JS.str s => (String.length s <? 8)%nat
  | JS.array xs => (List.length xs <? 8)%nat
  | JS.object props => (ToNumber (JS.get "length" props) <? 8)%float
  | _ => false
  end.

(** jsonwebtoken refuses a missing or empty key. *)
Definition usable_key (key : option string) : option string :=
  match key with
  | Some (String c k) => Some (String c k)
  | _ => None
  end.

(** [jwt.verify(token, process.env.JWT_SECRET)]: [true] when it returns. *)
Definition jwt_verify_call (token : string) : M bool :=
  key <- gets (fun w => JWT_SECRET (env w)) ;;
  t <- gets now ;;
  match usable_key key with
  | Some k => ret (jwt_verify rt token k t)
  | None => ret false
  end.

(** [jwt.sign({ admin: true }, process.env.JWT_SECRET, { expiresIn: '1h' })]. *)
Definition jwt_sign_call : M string :=
  key <- gets (fun w => JWT_SECRET (env w)) ;;
  t <- gets now ;;
  match usable_key key with
  | Some k => ret (jwt_sign rt k t)
  | None => throw "secretOrPrivateKey must have a value"
  end.

(** [await bcrypt.hash(data, rounds)]: a fresh salt each time. *)
Definition bcrypt_hash_call (data : string) (rounds : nat) : M string :=
  salt <- gets entropy ;;
  modify (set_entropy (S salt)) ;;
  ret (bcrypt_hash rt data rounds salt).

(** [await bcrypt.compare(data, encrypted)]: both must be strings. *)
Definition bcrypt_compare_call (data : JS.Value) (encrypted : option string) : M bool :=
  match data, encrypted with
  | JS.str s, Some h => ret (bcrypt_compare rt s h)
  | _, _ => throw "data and hash must be strings"
  end.

(** *** The session verifier (lines 61-71)

    [req.headers.authorization?.split(' ')[1]]. *)
Definition bearer_token (req : Request) : option string :=
  match authorization req with
  | None => None
  | Some header => nth_error (JS.split " " header) 1
  end.

(** [!token]: no token, or the empty string. *)
Definition missing (token : option string) : bool :=
  match token with
  | Some (String _ _) => false
  | _ => true
  end.

(** [next] is the rest of the route.  Express runs it under its own error
    handling, so the [catch] of lines 68-70 sees the failures of [jwt.verify]
    only. *)
Definition authenticateJWT (req : Request) (next : M Response) : M Response :=
  let token := bearer_token req in
  if missing token then respond 401 (Message "Unauthorized")
  else
    verified <- jwt_verify_call (match token with Some t => t | None => "" end) ;;
    if verified then next
    else respond 403 (Message "Invalid token").

(** *** The admin bootstrap (lines 74-99) *)
Definition initializeAdmin : M unit :=
  connectDB ;;
  try_catch
    (existingAdmin <- Admin_findOne ;;
     if match existingAdmin with Some a => initialized a | None => false end
     then ret tt
     else
       adminPassword <- gets (fun w => ADMIN_PASSWORD (env w)) ;;
       let refuse :=
         console_error "ADMIN_PASSWORD must be set and at least 8 characters." in
       match adminPassword with
       | None => refuse
       | Some secret =>
           if String.eqb secret "" || (String.length secret <? 8)%nat then refuse
           else
             hashedPassword <- bcrypt_hash_call secret 10 ;;
             match existingAdmin with
             | Some a => Admin_save a hashedPassword true ;; ret tt
             | None => Admin_create hashedPassword true ;; ret tt
             end
       end)
    (fun err => console_error (String.append "Error initializing admin: " err)).

(** *** [POST /api/authenticate] (lines 102-124) *)
Definition post_authenticate (req : Request) : M Response :=
  connectDB ;;
  let supplied := JS.get "password" (req_body req) in
  if negb (JS.ToBoolean supplied) || length_lt_8 supplied
  then respond 400 (Message "Password must be at least 8 characters")
  else
    try_catch
      (admin <- Admin_findOne ;;
       match admin with
       | None => respond 401 (Message "Admin account not initialized")
       | Some a =>
           if negb (initialized a)
           then respond 401 (Message "Admin account not initialized")
           else
             matched <- bcrypt_compare_call supplied (password a) ;;
             if matched
             then token <- jwt_sign_call ;; respond 200 (Token token)
             else respond 401 (Message "Invalid password")
       end)
      (fun err => console_error err ;; respond 500 (Message "Server error")).

(** *** [GET /api/verify-token] (lines 126-128) *)
Definition get_verify_token (req : Request) : M Response :=
  authenticateJWT req (respond 200 (Message "Token valid")).

(** *** [GET /api/presale-end] (lines 153-162) *)
Definition get_presale_end (req : Request) : M Response :=
  connectDB ;;
  try_catch
    (record <- PresaleEnd_findOne_latest ;;
     match record with
     | Some r => respond 200 (Document (PresaleEndRecord r))
     | None => respond 200 (Message "No presale end date set yet")
     end)
    (fun err => console_error err ;; respond 500 (Message "Server error")).

(** *** [POST /api/progress-bar] (lines 187-212) *)
Definition progress_bar_handler (req : Request) : M Response :=
  connectDB ;;
  let value := JS.get "value" (req_body req) in
  if JS.is_undefined value
  then respond 400 (Message "value is required")
  else
    let value := clamp (ToNumber value) in
    try_catch
      (record <- ProgressBar_findOne ;;
       match record with
       | Some r =>
           r' <- ProgressBar_save r value ;;
           respond 200 (MessageData "Progress bar value saved" (ProgressBarRecord r'))
       | None =>
           r' <- ProgressBar_create value ;;
           respond 200 (MessageData "Progress bar value saved" (ProgressBarRecord r'))
       end)
      (fun err => console_error err ;; respond 500 (Message "Server error")).

Definition post_progress_bar (req : Request) : M Response :=
  authenticateJWT req (progress_bar_handler req).

(** *** [GET /api/progress-bar] (lines 216-225) *)
Definition get_progress_bar (req : Request) : M Response :=
  connectDB ;;
  try_catch
    (record <- ProgressBar_findOne_latest ;;
     match record with
     | Some r => respond 200 (Document (ProgressBarRecord r))
     | None => respond 200 (Message "No progress bar value set yet")
     end)
    (fun err => console_error err ;; respond 500 (Message "Server error")).

(** *** [POST /api/wallet-address] (lines 229-251)

    [address.toLowerCase()] is a TypeError unless [address] is a string. *)
Definition call_toLowerCase (v : JS.Value) : M string :=
  match v with
  | JS.str s => ret (toLowerCase rt s)
  | _ => throw "address.toLowerCase is not a function"
  end.

Definition post_wallet_address (req : Request) : M Response :=
  connectDB ;;
  let address := JS.get "address" (req_body req) in
  if negb (JS.ToBoolean address)
  then respond 400 (Message "Address is required")
  else
    try_catch
      (lowerAddr <- call_toLowerCase address ;;
       existing <- WalletAddress_findOne lowerAddr ;;
       match existing with
       | Some e =>
           respond 409 (MessageData "Address already exists" (WalletAddressRecord e))
       | None =>
           record <- WalletAddress_create lowerAddr ;;
           respond 200 (MessageData "Wallet address saved" (WalletAddressRecord record))
       end)
      (fun err => console_error err ;; respond 500 (Message "Server error")).

(** *** [GET /api/init-admin] (lines 269-272) *)
Definition get_init_admin (req : Request) : M Response :=
  initializeAdmin ;;
  respond 200 (Text "Tried initializing admin").

End Server.

(** ** Vocabulary of the statements *)

Definition resolves (o : Outcome) : bool :=
  match o with Resolves => true | Rejects _ => false end.

(** Every awaited call still to come resolves. *)
Definition healthy (w : World) : bool := forallb resolves (pending w).

(** [connectDB] returns: the process is connected already, or the next
    awaited call (the dial) resolves. *)
Definition connects (w : World) : bool :=
  isConnected w ||
  match pending w with
  | Rejects _ :: _ => false
  | _ => true
  end.

(** [connectDB] returns and the query that follows it resolves. *)
Definition query_resolves (w : World) : bool :=
  forallb resolves (firstn (if isConnected w then 1 else 2) (pending w)).

(** The result of a run and the world it leaves. *)
Definition result_of {A : Type} (r : Result A * World) : Result A := fst r.
Definition world_after {A : Type} (r : Result A * World) : World := snd r.

(** [n] calls in a row. *)
Fixpoint repeatedly (n : nat) (c : M unit) : M unit :=
  match n with
  | 0 => ret tt
  | S k => c ;; repeatedly k c
  end.

(** The dials recorded in a trace. *)
Definition dials (t : list Event) : nat :=
  List.length (filter (fun e => match e with Connect _ => true | _ => false end) t).

(** The reads of the [Admin] collection recorded in a trace. *)
Definition credential_lookups (t : list Event) : nat :=
  List.length (filter (fun e => match e with Query MAdmin => true | _ => false end) t).

Arguments dials : simpl never.
Arguments credential_lookups : simpl never.

(** [jwt.verify] returns for this token, with the configured key, now. *)
Definition verifies (rt : Runtime) (w : World) (token : string) : bool :=
  match usable_key (JWT_SECRET (env w)) with
  | Some k => jwt_verify rt token k (now w)
  | None => false
  end.

(** An authenticated request: a token is extracted and it verifies. *)
Definition authenticated (rt : Runtime) (w : World) (req : Request) : bool :=
  match bearer_token req with
  | Some (String c t) => verifies rt w (String c t)
  | _ => false
  end.

(** A password the validation of [/api/authenticate] refuses: absent, or a
    string of fewer than 8 characters. *)
Definition short_password (v : JS.Value) : bool :=
  match v with
  | JS.undefined => true
  | JS.str s => (String.length s <? 8)%nat
  | _ => false
  end.

(** The bootstrap secret is absent or shorter than 8 characters. *)
Definition secret_too_short (e : Env) : bool :=
  match ADMIN_PASSWORD e with
  | None => true
  | Some secret => (String.length secret <? 8)%nat
  end.

(** The string contains a space character. *)
Fixpoint has_space (s : string) : bool :=
  match s with
  | EmptyString => false
  | String c rest => Ascii.eqb c " " || has_space rest
  end.

(** The two answers of the guard. *)
Definition unauthorized : Response :=
  {| status := 401; res_body := Message "Unauthorized" |}.

Definition invalid_token : Response :=
  {| status := 403; res_body := Message "Invalid token" |}.

(** The answers and the console line of the admin flow. *)
Definition password_too_short : Response :=
  {| status := 400; res_body := Message "Password must be at least 8 characters" |}.

Definition acknowledged : Response :=
  {| status := 200; res_body := Text "Tried initializing admin" |}.

Definition secret_refused : string :=
  "ADMIN_PASSWORD must be set and at least 8 characters.".

(** The placeholders of the two singleton reads, and the answer to a write. *)
Definition no_presale_end : Response :=
  {| status := 200; res_body := Message "No presale end date set yet" |}.

Definition no_progress_bar : Response :=
  {| status := 200; res_body := Message "No progress bar value set yet" |}.

Definition progress_saved (record : ProgressBarDoc) : Response :=
  {| status := 200;
     res_body := MessageData "Progress bar value saved" (ProgressBarRecord record) |}.

(** The two answers of [POST /api/wallet-address]. *)
Definition wallet_saved (record : WalletAddressDoc) : Response :=
  {| status := 200;
     res_body := MessageData "Wallet address saved" (WalletAddressRecord record) |}.

Definition wallet_exists (record : WalletAddressDoc) : Response :=
  {| status := 409;
     res_body := MessageData "Address already exists" (WalletAddressRecord record) |}.

(** The wallet records stored under an address. *)
Definition stored_under (a : string) (s : Store) : list WalletAddressDoc :=
  filter (fun d => String.eqb (address d) a) (WalletAddress s).

(** ** A runtime and worlds for the closed examples

    The example runtime agrees with Node on the inputs the examples use: it
    lower-cases ASCII letters, reads a string of decimal digits as a number
    and a string with any other character as NaN (the examples post no
    array and no object).  Its bcrypt and jsonwebtoken are stand-ins that keep
    the shape of the calls: a hash is the salt letter followed by the data,
    a token is the key behind a fixed prefix. *)
Module Example.

Fixpoint decimal (s : string) (acc : Z) : option Z :=
  match s with
  | EmptyString => Some acc
  | String c rest =>
      let n := Z.of_nat (nat_of_ascii c) in
      if ((48 <=? n) && (n <=? 57))%Z then decimal rest (10 * acc + (n - 48))%Z
      else None
  end.

Definition parse_number (s : string) : JS.Number :=
  match decimal s 0 with
  | Some n => of_uint63 (Uint63.of_Z n)
  | None => nan
  end.

Definition lower (c : ascii) : ascii :=
  let n := nat_of_ascii c in
  if ((65 <=? n) && (n <=? 90))%nat then ascii_of_nat (n + 32) else c.

Fixpoint lowercase (s : string) : string :=
  match s with
  | EmptyString => EmptyString
  | String c rest => String (lower c) (lowercase rest)
  end.

Definition runtime : Runtime := {|
  StringToNumber := parse_number;
  ObjectToNumber := fun _ => nan;
  toLowerCase := lowercase;
  bcrypt_hash := fun data rounds salt => String (ascii_of_nat (65 + salt)) data;
  bcrypt_compare := fun data encrypted =>
    match encrypted with
    | String _ d => String.eqb d data
    | EmptyString => false
    end;
  jwt_sign := fun key t => String.append "admin." key;
  jwt_verify := fun token key t => String.eqb token (String.append "admin." key)
|}.

Definition environment : Env := {|
  Database_URL := Some "mongodb://localhost/pumplotto";
  ADMIN_PASSWORD := Some "correct horse";
  JWT_SECRET := Some "signing-key"
|}.

Definition empty_store : Store := {|
  Admin := []; PresaleEnd := []; ProgressBar := []; WalletAddress := [];
  next_id := 0
|}.

(** A process that has not connected yet, over an empty store. *)
Definition fresh : World := {|
  env := environment; isConnected := false; db := empty_store; now := 1000;
  entropy := 7; pending := []; console := []; trace := []
|}.

(** The same process when the database cannot be reached. *)
Definition unreachable : World := set_pending [Rejects "connect ECONNREFUSED"] fresh.

(** A connected process. *)
Definition connected : World := set_isConnected true fresh.

(** A process whose bootstrap secret is too short. *)
Definition misconfigured : World := {|
  env := {| Database_URL := Database_URL environment;
            ADMIN_PASSWORD := Some "short";
            JWT_SECRET := JWT_SECRET environment |};
  isConnected := false; db := empty_store; now := 1000;
  entropy := 7; pending := []; console := []; trace := []
|}.

(** A store whose admin record exists and is not initialized. *)
Definition uninitialized : World :=
  set_db (set_Admin [{| admin_id := 3; password := None; initialized := false |}]
                    empty_store) fresh.

(** A store whose admin record is initialized. *)
Definition bootstrapped : World :=
  set_db (set_Admin [{| admin_id := 3; password := Some "Hcorrect horse";
                        initialized := true |}] empty_store) fresh.

(** A database that answers the dial and the query and refuses the write,
    as Mongoose does for a value it cannot cast. *)
Definition refusing : World :=
  set_pending [Resolves; Resolves; Rejects "Cast to Number failed"] fresh.

Definition plain_request : Request := {| authorization := None; req_body := [] |}.

Definition wallet_request (a : string) : Request :=
  {| authorization := None; req_body := [("address", JS.str a)] |}.

(** A request that carries the token the example runtime signs. *)
Definition admin_request (fields : list (string * JS.Value)) : Request :=
  {| authorization := Some "Bearer admin.signing-key"; req_body := fields |}.

End Example.

(** ** The remaining routes *)

Definition set_PresaleEnd (l : list PresaleEndDoc) (s : Store) : Store :=
  {| Admin := Admin s; PresaleEnd := l; ProgressBar := ProgressBar s;
     WalletAddress := WalletAddress s; next_id := next_id s |}.

(** [await PresaleEnd.findOne()]. *)
Definition PresaleEnd_findOne : M (option PresaleEndDoc) :=
  emit (Query MPresaleEnd) ;; settle ;;
  s <- gets db ;;
  ret (hd_error (PresaleEnd s)).

Fixpoint replace_presale (d : PresaleEndDoc) (l : list PresaleEndDoc)
  : list PresaleEndDoc :=
  match l with
  | [] => []
  | x :: rest =>
      if (presale_id x =? presale_id d)%nat then d :: rest
      else x :: replace_presale d rest
  end.

(** [record.endDateTime = t; await record.save()].  The trace keeps the
    payloads of the three other models; a presale write settles like any
    other call and is not recorded. *)
Definition PresaleEnd_save (d : PresaleEndDoc) (t : JS.Number) : M PresaleEndDoc :=
  settle ;;
  n <- gets now ;;
  let d' := {| presale_id := presale_id d; endDateTime := t;
               presale_createdAt := presale_createdAt d;
               presale_updatedAt := n |} in
  modify (fun w =>
    set_db (set_PresaleEnd (replace_presale d' (PresaleEnd (db w))) (db w)) w) ;;
  ret d'.

(** [await PresaleEnd.create({ endDateTime: t })]. *)
Definition PresaleEnd_create (t : JS.Number) : M PresaleEndDoc :=
  settle ;;
  n <- gets now ;;
  s <- gets db ;;
  let d := {| presale_id := next_id s; endDateTime := t;
              presale_createdAt := n; presale_updatedAt := n |} in
  modify (set_db (bump_next_id (set_PresaleEnd (PresaleEnd s ++ [d]) s))) ;;
  ret d.

(** [.sort({ createdAt: -1 })] on a whole collection: newest first, records
    of equal age in natural order. *)
Fixpoint insert_newest (d : WalletAddressDoc) (l : list WalletAddressDoc)
  : list WalletAddressDoc :=
  match l with
  | [] => [d]
  | x :: rest =>
      if (wallet_createdAt x <=? wallet_createdAt d)%nat then d :: x :: rest
      else x :: insert_newest d rest
  end.

Fixpoint newest_first (l : list WalletAddressDoc) : list WalletAddressDoc :=
  match l with
  | [] => []
  | d :: rest => insert_newest d (newest_first rest)
  end.

(** [await WalletAddress.find({}).sort({ createdAt: -1 })]. *)
Definition WalletAddress_find_newest_first : M (list WalletAddressDoc) :=
  emit (Query MWalletAddress) ;; settle ;;
  s <- gets db ;;
  ret (newest_first (WalletAddress s)).

(** What [GET /api/wallet-address] sends: the array of records, with status
    200, or an error response. *)
Inductive Listing : Type :=
| Records (records : list WalletAddressDoc)
| Failure (r : Response).

(** *** [GET /api/wallet-address] (lines 254-263) *)
Definition get_wallet_address (req : Request) : M Listing :=
  connectDB ;;
  try_catch
    (records <- WalletAddress_find_newest_first ;;
     ret (Records records))
    (fun err =>
       console_error err ;;
       ret (Failure {| status := 500; res_body := Message "Server error" |})).

Section PresaleEndRoute.

(** The time value of [new Date(v)], NaN for an invalid date. *)
Variable new_Date : JS.Value -> JS.Number.

Variable rt : Runtime.

(** *** [POST /api/presale-end] (lines 131-150) *)
Definition presale_end_handler (req : Request) : M Response :=
  connectDB ;;
  let endDateTime := JS.get "endDateTime" (req_body req) in
  if negb (JS.ToBoolean endDateTime)
  then respond 400 (Message "endDateTime is required")
  else
    try_catch
      (record <- PresaleEnd_findOne ;;
       match record with
       | Some r =>
           r' <- PresaleEnd_save r (new_Date endDateTime) ;;
           respond 200 (MessageData "Presale end date saved" (PresaleEndRecord r'))
       | None =>
           r' <- PresaleEnd_create (new_Date endDateTime) ;;
           respond 200 (MessageData "Presale end date saved" (PresaleEndRecord r'))
       end)
      (fun err => console_error err ;; respond 500 (Message "Server error")).

Definition post_presale_end (req : Request) : M Response :=
  authenticateJWT rt req (presale_end_handler req).

End PresaleEndRoute.

(** ** Further vocabulary *)

Definition server_error : Response :=
  {| status := 500; res_body := Message "Server error" |}.

Definition not_initialized : Response :=
  {| status := 401; res_body := Message "Admin account not initialized" |}.

Definition token_valid : Response :=
  {| status := 200; res_body := Message "Token valid" |}.

(** A request that carries nothing but an [Authorization] header. *)
Definition with_header (header : string) (fields : list (string * JS.Value)) : Request :=
  {| authorization := Some header; req_body := fields |}.

(** [connectDB] returns and the call after it is rejected for [reason]. *)
Definition query_rejected (w : World) (reason : string) : Prop :=
  connects w = true /\
  nth_error (pending w) (if isConnected w then 0 else 1) = Some (Rejects reason).

(** A run answers exactly when [connectDB] returns; otherwise it throws and
    leaves the store alone. *)
Definition answers_iff_connected {A : Type} (w : World) (run : Result A * World) : Prop :=
  if connects w then exists a, result_of run = Returned a
  else exists reason, result_of run = Thrown reason /\ db (world_after run) = db w.

(** A run that ends in the generic 500: the store is as before and the
    reason is the last line of the console. *)
Definition fails_with_500 (reason : string) (w : World) (run : Result Response * World)
  : Prop :=
  result_of run = Returned server_error /\
  db (world_after run) = db w /\
  exists lines, console (world_after run) = lines ++ [reason].

Definition presale_saved (record : PresaleEndDoc) : Response :=
  {| status := 200;
     res_body := MessageData "Presale end date saved" (PresaleEndRecord record) |}.

(** Newest first. *)
Definition not_older (a b : WalletAddressDoc) : Prop :=
  wallet_createdAt b <= wallet_createdAt a.

(** The example [Date]: a number is its own time value. *)
Definition example_Date (v : JS.Value) : JS.Number :=
  match v with
  | JS.number x => x
  | _ => nan
  end.

(** An example store with two progress records, the second one newer. *)
Definition example_doubled : World :=
  set_db (set_ProgressBar
            [{| progress_id := 1; value := 5%float;
                progress_createdAt := 10; progress_updatedAt := 10 |};
             {| progress_id := 2; value := 7%float;
                progress_createdAt := 20; progress_updatedAt := 20 |}]
            Example.empty_store) Example.fresh.

(** An example store with two wallet records. *)
Definition example_wallets : World :=
  set_db (set_WalletAddress
            [{| wallet_id := 1; address := "0xaa";
                wallet_createdAt := 10; wallet_updatedAt := 10 |};
             {| wallet_id := 2; address := "0xbb";
                wallet_createdAt := 20; wallet_updatedAt := 20 |}]
            Example.empty_store) Example.fresh.

(** * Proofs *)

(** ** Facts about the comparison of binary64 values *)
Section FloatFacts.

Lemma SFcompare_antisym (a b : spec_float) (c : comparison) :
  SFcompare a b = Some c -> SFcompare b a = Some (CompOpp c).
Proof.
  destruct a as [sa | sa | | sa ma ea], b as [sb | sb | | sb mb eb];
    cbn; try discriminate;
    try (destruct sa; intros [= <-]; reflexivity);
    try (destruct sb; intros [= <-]; reflexivity);
    try (intros [= <-]; reflexivity).
  - destruct sa, sb; intros [= <-]; reflexivity.
  - destruct sa, sb; intros [= <-]; try reflexivity;
      rewrite (Z.compare_antisym ea eb);
      destruct (ea ?= eb)%Z; cbn; try reflexivity;
      change PosDef.Pos.compare_cont with Pos.compare_cont;
      rewrite (Pos.compare_cont_antisym ma mb Eq); cbn;
      try rewrite CompOpp_involutive; reflexivity.
Qed.

Lemma leb_not_ltb (x y : float) : (x <=? y)%float = true -> (y <? x)%float = false.
Proof.
  rewrite leb_spec, ltb_spec. unfold SFleb, SFltb.
  destruct (SFcompare (Prim2SF x) (Prim2SF y)) as [c|] eqn:E; try discriminate.
  rewrite (SFcompare_antisym _ _ _ E). destruct c; cbn; congruence.
Qed.

Lemma ltb_not_ltb (x y : float) : (x <? y)%float = true -> (y <? x)%float = false.
Proof.
  rewrite !ltb_spec. unfold SFltb.
  destruct (SFcompare (Prim2SF x) (Prim2SF y)) as [c|] eqn:E; try discriminate.
  rewrite (SFcompare_antisym _ _ _ E). destruct c; cbn; congruence.
Qed.

End FloatFacts.

(** ** The clamp *)
Section ClampFacts.

Lemma SFcompare_refl (a : spec_float) : a <> S754_nan -> SFcompare a a = Some Eq.
Proof.
  destruct a as [s | s | | s m e]; cbn; try congruence.
  - destruct s; reflexivity.
  - intros _. rewrite Z.compare_refl.
    change PosDef.Pos.compare_cont with Pos.compare_cont.
    rewrite Pos.compare_cont_refl. destruct s; reflexivity.
Qed.

Lemma is_nan_spec (x : float) :
  is_nan x = match Prim2SF x with S754_nan => true | _ => false end.
Proof.
  unfold is_nan. rewrite eqb_spec. unfold SFeqb.
  destruct (Prim2SF x) eqn:E; try reflexivity;
    rewrite SFcompare_refl; try reflexivity; discriminate.
Qed.

Lemma is_nan_eq (x : float) : is_nan x = true -> x = nan.
Proof.
  rewrite is_nan_spec. intros H. apply Prim2SF_inj.
  destruct (Prim2SF x); try discriminate. reflexivity.
Qed.

Lemma is_pos_zero_spec (x : float) :
  JS.is_pos_zero x = match Prim2SF x with S754_zero false => true | _ => false end.
Proof.
  unfold JS.is_pos_zero. rewrite classify_spec. unfold SF64classify, SFclassify.
  destruct (Prim2SF x) as [[|]|[|]| |[|] m e]; try reflexivity;
    destruct (Z.pos (digits2_pos m) =? prec)%Z; reflexivity.
Qed.

Lemma is_neg_zero_spec (x : float) :
  JS.is_neg_zero x = match Prim2SF x with S754_zero true => true | _ => false end.
Proof.
  unfold JS.is_neg_zero. rewrite classify_spec. unfold SF64classify, SFclassify.
  destruct (Prim2SF x) as [[|]|[|]| |[|] m e]; try reflexivity;
    destruct (Z.pos (digits2_pos m) =? prec)%Z; reflexivity.
Qed.

Lemma Prim2SF_0 : Prim2SF 0 = S754_zero false.
Proof. reflexivity. Qed.

Lemma Prim2SF_100 : Prim2SF 100 = S754_finite false 7036874417766400 (-46).
Proof. reflexivity. Qed.

Lemma Prim2SF_infinity : Prim2SF infinity = S754_infinity false.
Proof. reflexivity. Qed.

Ltac sf_cases x :=
  rewrite ?is_nan_spec, ?is_pos_zero_spec, ?is_neg_zero_spec, ?ltb_spec, ?leb_spec, ?eqb_spec;
  rewrite ?Prim2SF_0, ?Prim2SF_100, ?Prim2SF_infinity;
  destruct (Prim2SF x) as [[|]|[|]| |[|] ? ?];
  cbn [SFltb SFleb SFeqb SFcompare]; intros; congruence.

Lemma below_facts (x : float) :
  (x <? 0)%float = true ->
  is_nan x = false /\ JS.is_neg_zero x = false /\ JS.is_pos_zero x = false /\
  (x <? infinity)%float = true /\ (100 <? x)%float = false /\ (0 <? x)%float = false.
Proof. intros H. repeat split; revert H; sf_cases x. Qed.

Lemma above_facts (x : float) :
  (100 <? x)%float = true ->
  is_nan x = false /\ JS.is_neg_zero x = false /\ JS.is_pos_zero x = false.
Proof. intros H. repeat split; revert H; sf_cases x. Qed.

Lemma within_facts (x : float) :
  (0 <=? x)%float = true -> (x <=? 100)%float = true ->
  is_nan x = false /\ (x <? infinity)%float = true /\ (100 <? x)%float = false.
Proof.
  intros H0 H100. split; [|split].
  - revert H0; sf_cases x.
  - revert H100; sf_cases x.
  - now apply leb_not_ltb.
Qed.

Lemma zero_facts (x : float) :
  (0 <=? x)%float = true -> (0 <? x)%float = false ->
  (0 =? x)%float = true /\ (JS.is_pos_zero x = true -> x = 0%float).
Proof.
  intros H0 Hlt. split.
  - revert H0 Hlt. rewrite leb_spec, ltb_spec, eqb_spec. unfold SFleb, SFltb, SFeqb.
    destruct (SFcompare (Prim2SF 0) (Prim2SF x)) as [[| |]|]; congruence.
  - rewrite is_pos_zero_spec. intros H. apply Prim2SF_inj.
    revert H. destruct (Prim2SF x) as [[|]|[|]| |[|] ? ?]; cbn; congruence.
Qed.

Lemma clamp_nan (x : float) : is_nan x = true -> clamp x = nan.
Proof.
  intros H. unfold clamp, JS.Math_min, JS.Math_max. cbn. rewrite H. reflexivity.
Qed.

Lemma clamp_below (x : float) : (x <? 0)%float = true -> clamp x = 0%float.
Proof.
  intros H. destruct (below_facts x H) as (Hn & Hz & Hp & Hi & Hc & H0).
  assert (Hmin : JS.Math_min x 100%float = x).
  { unfold JS.Math_min. cbn. now rewrite Hn, Hz, Hi, Hc. }
  unfold clamp. rewrite Hmin. unfold JS.Math_max. cbn.
  now rewrite Hn, Hp, H0.
Qed.

Lemma clamp_above (x : float) : (100 <? x)%float = true -> clamp x = 100%float.
Proof.
  intros H. destruct (above_facts x H) as (Hn & Hz & Hp).
  assert (Hmin : JS.Math_min x 100%float = 100%float).
  { unfold JS.Math_min. cbn. rewrite Hn, Hz, H. cbn. now destruct (x <? infinity)%float. }
  unfold clamp. rewrite Hmin. reflexivity.
Qed.

Lemma clamp_within (x : float) :
  (0 <=? x)%float = true -> (x <=? 100)%float = true ->
  clamp x = (if (0 <? x)%float then x else 0%float) /\ (clamp x =? x)%float = true.
Proof.
  intros H0 H100. destruct (within_facts x H0 H100) as (Hn & Hi & Hc).
  assert (Hmin : JS.Math_min x 100%float = x).
  { unfold JS.Math_min. cbn. rewrite Hn, Hi, Hc. now rewrite andb_false_r. }
  assert (Hmax : clamp x = if (0 <? x)%float then x else 0%float).
  { unfold clamp. rewrite Hmin. unfold JS.Math_max. cbn.
    rewrite Hn, andb_false_r. reflexivity. }
  split; [exact Hmax|]. rewrite Hmax.
  destruct (0 <? x)%float eqn:Hlt.
  - unfold is_nan in Hn. now destruct (x =? x)%float.
  - now apply zero_facts.
Qed.

Lemma not_ltb_leb (x y : float) :
  is_nan x = false -> is_nan y = false -> (x <? y)%float = false -> (y <=? x)%float = true.
Proof.
  rewrite !is_nan_spec, ltb_spec, leb_spec. unfold SFltb, SFleb.
  destruct (SFcompare (Prim2SF x) (Prim2SF y)) as [c|] eqn:E.
  - rewrite (SFcompare_antisym _ _ _ E). destruct c; cbn; congruence.
  - destruct (Prim2SF x) as [[|]|[|]| |[|] ? ?], (Prim2SF y) as [[|]|[|]| |[|] ? ?];
      cbn in E; congruence.
Qed.

Lemma clamp_refines_spec (x : float) :
  is_nan x = false -> (clamp x =? clamp_spec x)%float = true.
Proof.
  intros Hn. unfold clamp_spec.
  destruct (x <? 0)%float eqn:Hlo.
  - now rewrite clamp_below.
  - destruct (100 <? x)%float eqn:Hhi.
    + now rewrite clamp_above.
    + apply clamp_within; now apply not_ltb_leb.
Qed.

Lemma clamp_range (x : float) :
  is_nan x = false -> (0 <=? clamp x)%float = true /\ (clamp x <=? 100)%float = true.
Proof.
  intros Hn.
  destruct (x <? 0)%float eqn:Hlo; [rewrite clamp_below by assumption; now vm_compute|].
  destruct (100 <? x)%float eqn:Hhi; [rewrite clamp_above by assumption; now vm_compute|].
  assert (H0 : (0 <=? x)%float = true) by now apply not_ltb_leb.
  assert (H1 : (x <=? 100)%float = true) by now apply not_ltb_leb.
  destruct (clamp_within x H0 H1) as [-> _].
  destruct (0 <? x)%float; [now split | now vm_compute].
Qed.
End ClampFacts.

(** ** Running the monad *)

Ltac run :=
  unfold result_of, world_after, connectDB, mongoose_connect, respond,
    console_error, console_log, emit, settle, modify, gets, bind, try_catch,
    ret, throw in *;
  cbn in *.

(** Case analysis on how the awaited calls settle. *)
Ltac pop :=
  repeat match goal with
  | |- context [match ?p with [] => _ | _ :: _ => _ end] =>
      destruct p as [|[|?] ?]; cbn in *; try discriminate
  end.

Section ConnectionManager.

Lemma connectDB_connected (w : World) :
  isConnected w = true -> connectDB w = (Returned tt, w).
Proof. intros H. run. now rewrite H. Qed.

Lemma repeatedly_connectDB_connected (n : nat) (w : World) :
  isConnected w = true -> repeatedly n connectDB w = (Returned tt, w).
Proof.
  intros H. induction n as [|n IH]; [reflexivity|].
  cbn. unfold bind at 1. now rewrite (connectDB_connected w H).
Qed.

Lemma dials_app (t : list Event) (e : Event) :
  dials (t ++ [e]) = dials t + dials [e].
Proof. unfold dials. now rewrite filter_app, length_app. Qed.

Lemma dials_connect (uri : option string) : dials [Connect uri] = 1.
Proof. reflexivity. Qed.

Lemma connectDB_dials (w : World) :
  isConnected w = false ->
  trace (world_after (connectDB w)) = trace w ++ [Connect (Database_URL (env w))]
  /\ env (world_after (connectDB w)) = env w.
Proof.
  intros H. run. rewrite H. cbn.
  destruct (pending w) as [|[|r] rest]; split; reflexivity.
Qed.

Lemma connectDB_rejected (w : World) (reason : string) (rest : list Outcome) :
  isConnected w = false -> pending w = Rejects reason :: rest ->
  result_of (connectDB w) = Thrown reason /\
  isConnected (world_after (connectDB w)) = false.
Proof. intros H P. run. rewrite H. cbn. rewrite P. cbn. now split. Qed.

Lemma connectDB_resolved (w : World) :
  isConnected w = false -> connects w = true ->
  result_of (connectDB w) = Returned tt /\
  isConnected (world_after (connectDB w)) = true.
Proof.
  unfold connects. intros H C. rewrite H in C. run. rewrite H. cbn.
  destruct (pending w) as [|[|r] rest]; try discriminate; now split.
Qed.

(** Whenever [connectDB] returns it leaves the store alone; it returns
    exactly when the world [connects]. *)
Lemma connectDB_returns (w : World) :
  connects w = true ->
  exists w', connectDB w = (Returned tt, w') /\ db w' = db w /\ env w' = env w
    /\ now w' = now w /\ entropy w' = entropy w /\ isConnected w' = true
    /\ (healthy w = true -> healthy w' = true).
Proof.
  unfold connects, healthy. intros C. run.
  destruct (isConnected w) eqn:H; cbn in *.
  - exists w. repeat split; auto.
  - destruct (pending w) as [|[|r] rest] eqn:P; try discriminate;
      eexists; repeat split; cbn; auto. now rewrite P.
Qed.

Lemma healthy_connects (w : World) : healthy w = true -> connects w = true.
Proof.
  unfold healthy, connects. destruct (isConnected w); [reflexivity|]. cbn.
  destruct (pending w) as [|[|r] rest]; cbn; congruence.
Qed.

(** C6. [connectDB] is idempotent once connected, and a failed attempt is
    retried: with the flag set, any number of calls return at once and leave
    the world (and so the count of dials) as it was; with the flag unset, a
    dial that is rejected throws, leaves the flag unset and has dialled once,
    and the next call dials once more; a dial that resolves sets the flag. *)
Theorem connectDB_idempotent_and_retried (w : World) :
  (isConnected w = true ->
     forall n, repeatedly n connectDB w = (Returned tt, w)) /\
  (isConnected w = false ->
     forall reason rest, pending w = Rejects reason :: rest ->
       let failed := world_after (connectDB w) in
       result_of (connectDB w) = Thrown reason /\
       isConnected failed = false /\
       dials (trace failed) = dials (trace w) + 1 /\
       dials (trace (world_after (connectDB failed))) = dials (trace w) + 2) /\
  (isConnected w = false -> connects w = true ->
     result_of (connectDB w) = Returned tt /\
     isConnected (world_after (connectDB w)) = true).
Proof.
  split; [|split].
  - intros H n. now apply repeatedly_connectDB_connected.
  - intros H reason rest P failed.
    destruct (connectDB_rejected w reason rest H P) as [R F].
    destruct (connectDB_dials w H) as [T _].
    destruct (connectDB_dials failed F) as [T' _].
    repeat split; auto.
    + subst failed. rewrite T, dials_app, dials_connect. reflexivity.
    + rewrite T'. subst failed. rewrite T, !dials_app, !dials_connect. lia.
  - apply connectDB_resolved.
Qed.

(** The database is down at the first request and the request after it. *)
Lemma connectDB_idempotent_and_retried_witness :
  repeatedly 3 connectDB Example.connected = (Returned tt, Example.connected) /\
  result_of (connectDB Example.unreachable) = Thrown "connect ECONNREFUSED" /\
  isConnected (world_after (connectDB Example.unreachable)) = false /\
  isConnected (world_after (connectDB Example.fresh)) = true.
Proof.
  split; [|split; [|split]].
  - exact (proj1 (connectDB_idempotent_and_retried Example.connected) eq_refl 3).
  - exact (proj1 (proj1 (proj2 (connectDB_idempotent_and_retried Example.unreachable))
                   eq_refl "connect ECONNREFUSED" [] eq_refl)).
  - exact (proj1 (proj2 (proj1 (proj2 (connectDB_idempotent_and_retried Example.unreachable))
                   eq_refl "connect ECONNREFUSED" [] eq_refl))).
  - exact (proj2 (proj2 (proj2 (connectDB_idempotent_and_retried Example.fresh))
                   eq_refl eq_refl)).
Defined.

End ConnectionManager.

(** ** The session verifier *)
Section SessionVerifier.

Variable rt : Runtime.

Lemma jwt_verify_call_verifies (token : string) (w : World) :
  jwt_verify_call rt token w = (Returned (verifies rt w token), w).
Proof.
  unfold jwt_verify_call, verifies. run.
  destruct (usable_key (JWT_SECRET (env w))); reflexivity.
Qed.

Lemma authenticateJWT_cases (req : Request) (next : M Response) (w : World) :
  authenticateJWT rt req next w =
    match bearer_token req with
    | Some (String c t) =>
        if verifies rt w (String c t) then next w else (Returned invalid_token, w)
    | _ => (Returned unauthorized, w)
    end.
Proof.
  unfold authenticateJWT.
  destruct (bearer_token req) as [[|c t]|]; cbn; try reflexivity.
  unfold bind. rewrite jwt_verify_call_verifies.
  destruct (verifies rt w (String c t)); reflexivity.
Qed.

Lemma authenticateJWT_authenticated (req : Request) (next : M Response) (w : World) :
  authenticated rt w req = true -> authenticateJWT rt req next w = next w.
Proof.
  unfold authenticated. rewrite authenticateJWT_cases.
  destruct (bearer_token req) as [[|c t]|]; try discriminate.
  now intros ->.
Qed.

(** C8. The guard of a protected route: with no token to extract it answers
    401, with a token that does not verify against the configured key it
    answers 403, and in both cases the answer and the world do not depend on
    the wrapped handler, which therefore has not run; with a token that
    verifies the route is exactly the wrapped handler.  [/api/verify-token]
    answers 401, 403 and 200 accordingly. *)
Theorem authenticateJWT_guards (req : Request) (next : M Response) (w : World) :
  (missing (bearer_token req) = true ->
     authenticateJWT rt req next w = (Returned unauthorized, w) /\
     get_verify_token rt req w = (Returned unauthorized, w)) /\
  (forall token,
     bearer_token req = Some token -> missing (bearer_token req) = false ->
     verifies rt w token = false ->
     authenticateJWT rt req next w = (Returned invalid_token, w) /\
     get_verify_token rt req w = (Returned invalid_token, w)) /\
  (forall token,
     bearer_token req = Some token -> missing (bearer_token req) = false ->
     verifies rt w token = true ->
     authenticateJWT rt req next w = next w /\
     get_verify_token rt req w =
       (Returned {| status := 200; res_body := Message "Token valid" |}, w)).
Proof.
  unfold get_verify_token. rewrite !authenticateJWT_cases.
  split; [|split].
  - destruct (bearer_token req) as [[|c t]|]; cbn; try discriminate; now split.
  - intros token -> M V. destruct token as [|c t]; cbn in M; try discriminate.
    rewrite V. now split.
  - intros token -> M V. destruct token as [|c t]; cbn in M; try discriminate.
    rewrite V. now split.
Qed.

Lemma split_no_space (s : string) :
  has_space s = false -> JS.split " " s = [s].
Proof.
  induction s as [|c s IH]; cbn; [reflexivity|].
  intros H. apply orb_false_iff in H as [Hc Hs].
  rewrite Hc, (IH Hs). reflexivity.
Qed.

(** C9. A header without a space has no second component: the token is
    [undefined], the guard answers 401 (not 403) and the wrapped handler does
    not run, whatever the header itself would verify as. *)
Theorem authenticateJWT_header_without_space
    (req : Request) (next : M Response) (w : World) (header : string) :
  authorization req = Some header -> has_space header = false ->
  bearer_token req = None /\
  authenticateJWT rt req next w = (Returned unauthorized, w).
Proof.
  intros A S. assert (T : bearer_token req = None).
  { unfold bearer_token. rewrite A, (split_no_space _ S). reflexivity. }
  split; [exact T|].
  rewrite authenticateJWT_cases, T. reflexivity.
Qed.

End SessionVerifier.

(** No header, a header that does not verify, and the signed token. *)
Lemma authenticateJWT_guards_witness :
  get_verify_token Example.runtime Example.plain_request Example.fresh
    = (Returned unauthorized, Example.fresh) /\
  get_verify_token Example.runtime
      {| authorization := Some "Bearer forged"; req_body := [] |} Example.fresh
    = (Returned invalid_token, Example.fresh) /\
  get_verify_token Example.runtime (Example.admin_request []) Example.fresh
    = (Returned {| status := 200; res_body := Message "Token valid" |}, Example.fresh).
Proof.
  split; [|split].
  - exact (proj2 (proj1 (authenticateJWT_guards Example.runtime Example.plain_request
                           (ret unauthorized) Example.fresh) eq_refl)).
  - exact (proj2 (proj1 (proj2 (authenticateJWT_guards Example.runtime
                           {| authorization := Some "Bearer forged"; req_body := [] |}
                           (ret unauthorized) Example.fresh))
                   "forged" eq_refl eq_refl eq_refl)).
  - exact (proj2 (proj2 (proj2 (authenticateJWT_guards Example.runtime
                           (Example.admin_request []) (ret unauthorized) Example.fresh))
                   "admin.signing-key" eq_refl eq_refl eq_refl)).
Defined.

(** The signed token sent bare, without the [Bearer ] prefix: it would verify,
    and the guard still answers 401. *)
Lemma authenticateJWT_header_without_space_witness :
  verifies Example.runtime Example.fresh "admin.signing-key" = true /\
  authenticateJWT Example.runtime
      {| authorization := Some "admin.signing-key"; req_body := [] |}
      (respond 200 (Message "Token valid")) Example.fresh
    = (Returned unauthorized, Example.fresh).
Proof.
  split; [reflexivity|].
  exact (proj2 (authenticateJWT_header_without_space Example.runtime
                  {| authorization := Some "admin.signing-key"; req_body := [] |}
                  (respond 200 (Message "Token valid")) Example.fresh
                  "admin.signing-key" eq_refl eq_refl)).
Defined.
(** ** The admin flow *)
Section AdminFlow.

Variable rt : Runtime.

Lemma credential_lookups_app (t : list Event) (e : Event) :
  credential_lookups (t ++ [e]) = credential_lookups t + credential_lookups [e].
Proof. unfold credential_lookups. now rewrite filter_app, length_app. Qed.

(** [connectDB] touches neither the store nor the credentials, however the
    dial settles. *)
Lemma connectDB_frame (w : World) :
  db (world_after (connectDB w)) = db w /\
  credential_lookups (trace (world_after (connectDB w))) = credential_lookups (trace w).
Proof.
  run. destruct (isConnected w); cbn; [now split|].
  destruct (pending w) as [|[|r] rest]; cbn;
    rewrite credential_lookups_app; split; auto; apply Nat.add_0_r.
Qed.



Lemma long_enough (secret : string) :
  8 <= String.length secret ->
  String.eqb secret "" || (String.length secret <? 8)%nat = false.
Proof.
  intros L.
  replace (String.length secret <? 8)%nat with false
    by (symmetry; apply Nat.ltb_ge; exact L).
  destruct secret as [|c s]; [cbn in L; lia | reflexivity].
Qed.

(** Once [connectDB] has returned, [initializeAdmin] returns: whatever the
    [try] block throws is logged by the [catch]. *)
Lemma initializeAdmin_returns (w : World) :
  connects w = true -> exists w', initializeAdmin rt w = (Returned tt, w').
Proof.
  intros C. destruct (connectDB_returns w C) as (w1 & E & _).
  unfold initializeAdmin. unfold bind at 1. rewrite E. unfold try_catch.
  match goal with
  | |- exists _, (let (_, _) := ?body in _) = _ => destruct body as [[[]|e] w2]
  end.
  - now exists w2.
  - eexists. reflexivity.
Qed.

(** With a secret that is absent or too short the store is left alone,
    however the calls settle. *)
Lemma initializeAdmin_short_secret_db (w : World) :
  secret_too_short (env w) = true ->
  db (world_after (initializeAdmin rt w)) = db w.
Proof.
  unfold secret_too_short, initializeAdmin, Admin_findOne.
  destruct w as [[url secret key] c d n en p co tr]; cbn.
  intros S. run.
  destruct c; cbn; pop; try reflexivity;
    destruct (Admin d) as [|[i pw [|]] others]; cbn; try reflexivity;
    destruct secret as [secret|]; cbn; try reflexivity;
    rewrite S, orb_true_r; reflexivity.
Qed.

(** With such a secret, calls that resolve and no initialized record, the
    refusal is the last line of the console. *)
Lemma initializeAdmin_short_secret_logged (w : World) :
  secret_too_short (env w) = true -> healthy w = true ->
  match hd_error (Admin (db w)) with Some a => initialized a | None => false end = false ->
  exists lines, console (world_after (initializeAdmin rt w)) = lines ++ [secret_refused].
Proof.
  unfold secret_too_short, healthy, initializeAdmin, Admin_findOne.
  destruct w as [[url secret key] c d n en p co tr]; cbn.
  intros S H I. run.
  destruct c; cbn; pop;
    destruct (Admin d) as [|[i pw [|]] others]; cbn in *; try discriminate;
    destruct secret as [secret|]; cbn;
    rewrite ?S, ?orb_true_r; cbn; eexists; reflexivity.
Qed.


Lemma get_init_admin_after (req : Request) (w : World) :
  get_init_admin rt req w =
    match initializeAdmin rt w with
    | (Returned _, w') => (Returned acknowledged, w')
    | (Thrown e, w') => (Thrown e, w')
    end.
Proof. reflexivity. Qed.

(** C2, amended. Once [connectDB] has returned (the process is connected or
    the dial resolves), [GET /api/init-admin] answers 200 with the plain-text
    acknowledgment, for every environment and store and however the store
    calls settle.  In particular, with the bootstrap secret absent or shorter
    than 8 characters the store is untouched, and when the calls resolve and
    no initialized record is found the refusal is written to the console;
    the answer is the same 200. *)
Theorem init_admin_acknowledges_once_connected (req : Request) (w : World) :
  connects w = true ->
  result_of (get_init_admin rt req w) = Returned acknowledged /\
  (secret_too_short (env w) = true ->
     db (world_after (get_init_admin rt req w)) = db w /\
     (healthy w = true ->
      match hd_error (Admin (db w)) with
      | Some a => initialized a
      | None => false
      end = false ->
      exists lines,
        console (world_after (get_init_admin rt req w)) = lines ++ [secret_refused])).
Proof.
  intros C. destruct (initializeAdmin_returns w C) as (w' & E).
  assert (W : world_after (get_init_admin rt req w) = world_after (initializeAdmin rt w)).
  { rewrite get_init_admin_after, E. reflexivity. }
  split.
  - rewrite get_init_admin_after, E. reflexivity.
  - intros S. rewrite W. split.
    + now apply initializeAdmin_short_secret_db.
    + intros H I. now apply initializeAdmin_short_secret_logged.
Qed.

(** The bootstrap proper, when every call resolves. *)
Lemma initializeAdmin_initialized (w : World) (existing : AdminDoc) :
  healthy w = true ->
  hd_error (Admin (db w)) = Some existing -> initialized existing = true ->
  result_of (initializeAdmin rt w) = Returned tt /\
  db (world_after (initializeAdmin rt w)) = db w.
Proof.
  unfold healthy, initializeAdmin, Admin_findOne.
  destruct w as [e c d n en p co tr]; cbn.
  intros H E I. run.
  destruct c; cbn; pop; rewrite E, I; cbn; now split.
Qed.

Lemma initializeAdmin_overwrites (w : World) (existing : AdminDoc)
    (others : list AdminDoc) (secret : string) :
  healthy w = true ->
  Admin (db w) = existing :: others -> initialized existing = false ->
  ADMIN_PASSWORD (env w) = Some secret -> 8 <= String.length secret ->
  result_of (initializeAdmin rt w) = Returned tt /\
  Admin (db (world_after (initializeAdmin rt w))) =
    {| admin_id := admin_id existing;
       password := Some (bcrypt_hash rt secret 10 (entropy w));
       initialized := true |} :: others.
Proof.
  unfold healthy, initializeAdmin, Admin_findOne, Admin_save, bcrypt_hash_call.
  destruct w as [e c d n en p co tr]; cbn.
  intros H E I P L. apply long_enough in L. run.
  destruct c; cbn in *; pop; rewrite E; cbn; rewrite I; cbn; rewrite P; cbn; rewrite L; cbn;
    pop; cbn; rewrite ?E; cbn; rewrite ?Nat.eqb_refl; now split.
Qed.

Lemma initializeAdmin_creates (w : World) (secret : string) :
  healthy w = true ->
  Admin (db w) = [] ->
  ADMIN_PASSWORD (env w) = Some secret -> 8 <= String.length secret ->
  result_of (initializeAdmin rt w) = Returned tt /\
  Admin (db (world_after (initializeAdmin rt w))) =
    [{| admin_id := next_id (db w);
        password := Some (bcrypt_hash rt secret 10 (entropy w));
        initialized := true |}].
Proof.
  unfold healthy, initializeAdmin, Admin_findOne, Admin_create, bcrypt_hash_call.
  destruct w as [e c d n en p co tr]; cbn.
  intros H E P L. apply long_enough in L. run.
  destruct c; cbn in *; pop; rewrite E; cbn; rewrite P; cbn; rewrite L; cbn;
    pop; cbn; rewrite ?E; now split.
Qed.


(** A record that is initialized is stored unchanged afterwards, wherever it
    sits in the collection and however the calls settle. *)
Lemma initializeAdmin_keeps_initialized (w : World) (r : AdminDoc) :
  In r (Admin (db w)) -> initialized r = true ->
  In r (Admin (db (world_after (initializeAdmin rt w)))).
Proof.
  unfold initializeAdmin, Admin_findOne, Admin_save, Admin_create, bcrypt_hash_call.
  destruct w as [[url secret key] c d n en p co tr]; cbn. intros R I. run.
  destruct (Admin d) as [|existing others] eqn:E; [contradiction|].
  assert (K : forall d', initialized existing = false -> In r (d' :: others)).
  { intros d' IE. destruct R as [->|R]; [congruence | now right]. }
  destruct c; cbn; pop; rewrite ?E; cbn; auto;
    destruct (initialized existing) eqn:IE; cbn; rewrite ?E; auto;
    destruct secret as [s|]; cbn; rewrite ?E; auto;
    match goal with
    | |- context [if ?b then _ else _] => destruct b
    end; cbn; rewrite ?E; auto;
    pop; cbn; rewrite ?E; cbn; rewrite ?Nat.eqb_refl; auto;
    apply K; reflexivity.
Qed.


End AdminFlow.


(** The database cannot be reached: [connectDB] throws before the [try] of
    [initializeAdmin], the handler's promise is rejected and no response is
    sent. *)
Lemma init_admin_unreachable_counterexample :
  result_of (get_init_admin Example.runtime Example.plain_request Example.unreachable)
    = Thrown "connect ECONNREFUSED" /\
  result_of (get_init_admin Example.runtime Example.plain_request Example.unreachable)
    <> Returned acknowledged.
Proof. split; [reflexivity | discriminate]. Qed.

(** A secret that is too short, over a database that answers. *)
Lemma init_admin_acknowledges_once_connected_witness :
  result_of (get_init_admin Example.runtime Example.plain_request Example.misconfigured)
    = Returned acknowledged /\
  db (world_after (get_init_admin Example.runtime Example.plain_request
                     Example.misconfigured)) = db Example.misconfigured.
Proof.
  split.
  - exact (proj1 (init_admin_acknowledges_once_connected Example.runtime
                    Example.plain_request Example.misconfigured eq_refl)).
  - exact (proj1 (proj2 (init_admin_acknowledges_once_connected Example.runtime
                    Example.plain_request Example.misconfigured eq_refl) eq_refl)).
Defined.


(** ** The singleton resources *)
Section Singletons.

(** C7. With no record of the kind in the store, [GET /api/presale-end] and
    [GET /api/progress-bar] answer 200 with their placeholder message, once
    [connectDB] has returned and the query has resolved. *)
Theorem singleton_get_placeholder (req : Request) (w : World) :
  query_resolves w = true ->
  (PresaleEnd (db w) = [] -> result_of (get_presale_end req w) = Returned no_presale_end) /\
  (ProgressBar (db w) = [] -> result_of (get_progress_bar req w) = Returned no_progress_bar).
Proof.
  unfold query_resolves, get_presale_end, get_progress_bar, PresaleEnd_findOne_latest,
    ProgressBar_findOne_latest.
  destruct w as [e c d n en p co tr]; cbn. intros H. run.
  split; intros E; destruct c; cbn in *; pop; rewrite E; reflexivity.
Qed.

Variable rt : Runtime.

(** The handler proper, when the calls resolve: the record [findOne] would
    return afterwards is the one answered, and it holds the clamped value. *)
Lemma progress_bar_handler_saves (req : Request) (w : World) :
  healthy w = true ->
  JS.is_undefined (JS.get "value" (req_body req)) = false ->
  exists record,
    result_of (progress_bar_handler rt req w) = Returned (progress_saved record) /\
    ProgressBar (db (world_after (progress_bar_handler rt req w)))
      = record :: tl (ProgressBar (db w)) /\
    value record = clamp (ToNumber rt (JS.get "value" (req_body req))).
Proof.
  unfold healthy, progress_bar_handler, ProgressBar_findOne, ProgressBar_save,
    ProgressBar_create.
  destruct w as [e c d n en p co tr]; cbn. intros H U. rewrite U. run.
  destruct (ProgressBar d) as [|r rest] eqn:E;
    destruct c; cbn in *; pop; rewrite ?E; cbn; pop; cbn; rewrite ?E; cbn;
    rewrite ?Nat.eqb_refl; eexists; repeat split.
Qed.


(** C10. A defined value whose [Number(...)] is NaN: the clamp is NaN, which is
    no number of [0, 100]; the request passes the presence check, so that once
    [connectDB] has returned the answer is 200 or 500, never 400; and when the
    query resolves, NaN is the value handed to the write. *)
Theorem progress_bar_nan_reaches_the_write (req : Request) (w : World) (v : JS.Value) :
  authenticated rt w req = true ->
  JS.get "value" (req_body req) = v -> JS.is_undefined v = false ->
  is_nan (ToNumber rt v) = true ->
  clamp (ToNumber rt v) = nan /\
  (0 <=? clamp (ToNumber rt v))%float = false /\
  (clamp (ToNumber rt v) <=? 100)%float = false /\
  (connects w = true ->
     exists resp,
       result_of (post_progress_bar rt req w) = Returned resp /\
       (status resp = 200 \/ status resp = 500)) /\
  (query_resolves w = true ->
     In (Write MProgressBar (ProgressFields nan))
        (trace (world_after (post_progress_bar rt req w)))).
Proof.
  intros A <- U N. rewrite (clamp_nan _ N).
  split; [reflexivity|]. split; [reflexivity|]. split; [reflexivity|].
  unfold post_progress_bar. rewrite (authenticateJWT_authenticated rt req _ w A).
  unfold connects, query_resolves, progress_bar_handler, ProgressBar_findOne,
    ProgressBar_save, ProgressBar_create.
  rewrite U, (clamp_nan _ N).
  destruct w as [e c d n en p co tr]; cbn. run.
  split; intros C;
    destruct (ProgressBar d) as [|r rest] eqn:E;
    destruct c; cbn in *; pop; rewrite ?E; cbn; pop; cbn;
    try (eexists; split; [reflexivity|]; cbn; auto);
    rewrite ?in_app_iff; cbn; auto.
Qed.

End Singletons.

(** Nothing stored yet. *)
Lemma singleton_get_placeholder_witness :
  result_of (get_presale_end Example.plain_request Example.fresh) = Returned no_presale_end /\
  result_of (get_progress_bar Example.plain_request Example.fresh) = Returned no_progress_bar.
Proof.
  split.
  - exact (proj1 (singleton_get_placeholder Example.plain_request Example.fresh eq_refl)
             eq_refl).
  - exact (proj2 (singleton_get_placeholder Example.plain_request Example.fresh eq_refl)
             eq_refl).
Defined.


(** The string [abc], which no number parser reads, against a store that
    refuses what it cannot cast. *)
Lemma progress_bar_nan_reaches_the_write_witness :
  clamp (ToNumber Example.runtime (JS.str "abc")) = nan /\
  In (Write MProgressBar (ProgressFields nan))
     (trace (world_after (post_progress_bar Example.runtime
        (Example.admin_request [("value", JS.str "abc")]) Example.refusing))) /\
  result_of (post_progress_bar Example.runtime
        (Example.admin_request [("value", JS.str "abc")]) Example.refusing)
    = Returned {| status := 500; res_body := Message "Server error" |}.
Proof.
  split; [|split].
  - exact (proj1 (progress_bar_nan_reaches_the_write Example.runtime
             (Example.admin_request [("value", JS.str "abc")]) Example.refusing
             (JS.str "abc") eq_refl eq_refl eq_refl eq_refl)).
  - exact (proj2 (proj2 (proj2 (proj2 (progress_bar_nan_reaches_the_write Example.runtime
             (Example.admin_request [("value", JS.str "abc")]) Example.refusing
             (JS.str "abc") eq_refl eq_refl eq_refl eq_refl)))) eq_refl).
  - reflexivity.
Defined.

(** ** The wallet addresses *)
Section WalletAddresses.

Variable rt : Runtime.

Lemma find_none_filter {A : Type} (f : A -> bool) (l : list A) :
  find f l = None -> filter f l = [].
Proof.
  induction l as [|x l IH]; cbn; [reflexivity|].
  destruct (f x); [discriminate | exact IH].
Qed.

Lemma find_app_none {A : Type} (f : A -> bool) (l : list A) (x : A) :
  find f l = None -> f x = true -> find f (l ++ [x]) = Some x.
Proof.
  induction l as [|y l IH]; cbn; intros N T.
  - now rewrite T.
  - destruct (f y); [discriminate | now apply IH].
Qed.

(** An address that is not stored yet is stored in lower case. *)
Lemma post_wallet_address_creates (req : Request) (w : World) (a : string) :
  healthy w = true ->
  JS.get "address" (req_body req) = JS.str a -> a <> "" ->
  find (fun d => String.eqb (address d) (toLowerCase rt a)) (WalletAddress (db w)) = None ->
  let record := {| wallet_id := next_id (db w); address := toLowerCase rt a;
                   wallet_createdAt := now w; wallet_updatedAt := now w |} in
  result_of (post_wallet_address rt req w) = Returned (wallet_saved record) /\
  WalletAddress (db (world_after (post_wallet_address rt req w)))
    = WalletAddress (db w) ++ [record].
Proof.
  unfold healthy, post_wallet_address, WalletAddress_findOne, WalletAddress_create.
  destruct w as [e c d n en p co tr]; cbn. intros H B NE F.
  apply String.eqb_neq in NE. rewrite B. cbn. rewrite NE. cbn. run.
  destruct c; cbn in *; pop; rewrite ?F; cbn; pop; cbn; now split.
Qed.

(** An address that is stored already is refused with 409, and nothing is
    written. *)
Lemma post_wallet_address_conflicts (req : Request) (w : World) (a : string)
    (existing : WalletAddressDoc) :
  healthy w = true ->
  JS.get "address" (req_body req) = JS.str a -> a <> "" ->
  find (fun d => String.eqb (address d) (toLowerCase rt a)) (WalletAddress (db w))
    = Some existing ->
  result_of (post_wallet_address rt req w) = Returned (wallet_exists existing) /\
  db (world_after (post_wallet_address rt req w)) = db w.
Proof.
  unfold healthy, post_wallet_address, WalletAddress_findOne.
  destruct w as [e c d n en p co tr]; cbn. intros H B NE F.
  apply String.eqb_neq in NE. rewrite B. cbn. rewrite NE. cbn. run.
  destruct c; cbn in *; pop; rewrite ?F; cbn; now split.
Qed.

(** C5. Two posts whose addresses agree after lower-casing, the address not
    being stored before the first and the calls resolving: the first answers
    200 and appends one record, which holds the lower-case address; the second,
    run on the store the first left, answers 409 with that record and leaves
    the store as it is; afterwards exactly that one record is stored under the
    normalized address. *)
Theorem wallet_address_posted_twice
    (req1 req2 : Request) (w1 w2 : World) (a1 a2 : string) :
  JS.get "address" (req_body req1) = JS.str a1 -> a1 <> "" ->
  JS.get "address" (req_body req2) = JS.str a2 -> a2 <> "" ->
  toLowerCase rt a1 = toLowerCase rt a2 ->
  stored_under (toLowerCase rt a1) (db w1) = [] ->
  healthy w1 = true -> healthy w2 = true ->
  db w2 = db (world_after (post_wallet_address rt req1 w1)) ->
  exists record,
    result_of (post_wallet_address rt req1 w1) = Returned (wallet_saved record) /\
    address record = toLowerCase rt a1 /\
    WalletAddress (db w2) = WalletAddress (db w1) ++ [record] /\
    result_of (post_wallet_address rt req2 w2) = Returned (wallet_exists record) /\
    db (world_after (post_wallet_address rt req2 w2)) = db w2 /\
    stored_under (toLowerCase rt a1) (db (world_after (post_wallet_address rt req2 w2)))
      = [record].
Proof.
  intros B1 N1 B2 N2 L S H1 H2 D.
  assert (F : find (fun d => String.eqb (address d) (toLowerCase rt a1))
                (WalletAddress (db w1)) = None).
  { unfold stored_under in S. destruct (find _ _) as [x|] eqn:E; [|reflexivity].
    apply find_some in E as [I T].
    assert (I' : In x (filter (fun d => String.eqb (address d) (toLowerCase rt a1))
                         (WalletAddress (db w1)))) by (apply filter_In; now split).
    rewrite S in I'. contradiction. }
  destruct (post_wallet_address_creates req1 w1 a1 H1 B1 N1 F) as [R1 W1].
  set (record := {| wallet_id := next_id (db w1); address := toLowerCase rt a1;
                    wallet_createdAt := now w1; wallet_updatedAt := now w1 |}) in *.
  assert (W2 : WalletAddress (db w2) = WalletAddress (db w1) ++ [record])
    by (rewrite D; exact W1).
  assert (F2 : find (fun d => String.eqb (address d) (toLowerCase rt a2))
                 (WalletAddress (db w2)) = Some record).
  { rewrite W2, <- L. apply find_app_none; [exact F | apply String.eqb_refl]. }
  destruct (post_wallet_address_conflicts req2 w2 a2 record H2 B2 N2 F2) as [R2 U2].
  exists record. repeat split; auto.
  rewrite U2. unfold stored_under. rewrite W2, filter_app.
  unfold stored_under in S. rewrite S. cbn. now rewrite String.eqb_refl.
Qed.

End WalletAddresses.

(** [0xABC], then [0xabc]. *)
Lemma wallet_address_posted_twice_witness :
  exists record,
    address record = "0xabc" /\
    result_of (post_wallet_address Example.runtime (Example.wallet_request "0xABC")
                 Example.fresh) = Returned (wallet_saved record) /\
    result_of (post_wallet_address Example.runtime (Example.wallet_request "0xabc")
                 (world_after (post_wallet_address Example.runtime
                    (Example.wallet_request "0xABC") Example.fresh)))
      = Returned (wallet_exists record) /\
    stored_under "0xabc"
      (db (world_after (post_wallet_address Example.runtime (Example.wallet_request "0xabc")
             (world_after (post_wallet_address Example.runtime
                (Example.wallet_request "0xABC") Example.fresh)))))
      = [record].
Proof.
  destruct (wallet_address_posted_twice Example.runtime
              (Example.wallet_request "0xABC") (Example.wallet_request "0xabc")
              Example.fresh
              (world_after (post_wallet_address Example.runtime
                 (Example.wallet_request "0xABC") Example.fresh))
              "0xABC" "0xabc")
    as (record & R1 & A & _ & R2 & _ & S); try reflexivity; try discriminate.
  exists record. repeat split; assumption.
Defined.

(** ** Scenarios

    The handlers run end to end on the example runtime. *)
Section Scenarios.

Let login (secret : string) : Request :=
  {| authorization := None; req_body := [("password", JS.str secret)] |}.

Let after_bootstrap : World :=
  world_after (get_init_admin Example.runtime Example.plain_request Example.fresh).

Example bootstrap_then_login :
  result_of (post_authenticate Example.runtime (login "correct horse") after_bootstrap)
    = Returned {| status := 200; res_body := Token "admin.signing-key" |}.
Proof. reflexivity. Qed.

Example bootstrap_then_wrong_password :
  result_of (post_authenticate Example.runtime (login "battery staple") after_bootstrap)
    = Returned {| status := 401; res_body := Message "Invalid password" |}.
Proof. reflexivity. Qed.

Example login_before_bootstrap :
  result_of (post_authenticate Example.runtime (login "correct horse") Example.fresh)
    = Returned {| status := 401; res_body := Message "Admin account not initialized" |}.
Proof. reflexivity. Qed.

Example login_without_a_string :
  result_of (post_authenticate Example.runtime
               {| authorization := None; req_body := [("password", JS.number 12345678%float)] |}
               after_bootstrap)
    = Returned {| status := 500; res_body := Message "Server error" |}.
Proof. reflexivity. Qed.

Example progress_posted_then_read :
  result_of (get_progress_bar Example.plain_request
               (world_after (post_progress_bar Example.runtime
                  (Example.admin_request [("value", JS.str "150")]) Example.fresh)))
    = Returned {| status := 200;
                  res_body := Document (ProgressBarRecord
                    {| progress_id := 0; value := 100%float;
                       progress_createdAt := 1000; progress_updatedAt := 1000 |}) |}.
Proof. reflexivity. Qed.

Example progress_without_token :
  post_progress_bar Example.runtime
      {| authorization := None; req_body := [("value", JS.number 42%float)] |} Example.fresh
    = (Returned unauthorized, Example.fresh).
Proof. reflexivity. Qed.

Example progress_without_value :
  result_of (post_progress_bar Example.runtime (Example.admin_request []) Example.fresh)
    = Returned {| status := 400; res_body := Message "value is required" |}.
Proof. reflexivity. Qed.

Example wallet_without_address :
  result_of (post_wallet_address Example.runtime (Example.wallet_request "") Example.fresh)
    = Returned {| status := 400; res_body := Message "Address is required" |}.
Proof. reflexivity. Qed.

Example split_bearer : JS.split " " "Bearer a.b.c" = ["Bearer"; "a.b.c"].
Proof. reflexivity. Qed.

Example clamp_of_negative_zero : clamp (-0)%float = 0%float.
Proof. reflexivity. Qed.

End Scenarios.

(** * Further properties of the handlers *)

From Stdlib Require Import Permutation Sorted.

(** Case analysis on every branch a run takes. *)
Ltac branches :=
  repeat (cbn in *; try reflexivity; try discriminate;
          first
            [ match goal with
              | |- context [match ?p with [] => _ | _ :: _ => _ end] =>
                  is_var p; destruct p as [|[|?] ?]
              end
            | match goal with
              | |- context [match ?x with _ => _ end] =>
                  lazymatch x with
                  | context [match _ with _ => _ end] => fail
                  | _ => destruct x eqn:?
                  end
              end ]);
  cbn in *.

(** ** Authentication *)
Section Authentication.

Variable rt : Runtime.

(** The handler changes neither the store, nor the environment, nor the
    clock. *)
Lemma post_authenticate_frame (req : Request) (w : World) :
  db (world_after (post_authenticate rt req w)) = db w /\
  env (world_after (post_authenticate rt req w)) = env w /\
  now (world_after (post_authenticate rt req w)) = now w.
Proof.
  unfold post_authenticate, Admin_findOne, bcrypt_compare_call, jwt_sign_call.
  destruct w as [e [|] d n en p co tr]; run; branches; auto.
Qed.

(** X1. [POST /api/authenticate] only reads: whatever the request and however
    the calls settle, the store is left as it was. *)
Theorem authenticate_never_writes (req : Request) (w : World) :
  db (world_after (post_authenticate rt req w)) = db w.
Proof. apply post_authenticate_frame. Qed.

Lemma post_authenticate_token (req : Request) (w : World) (t : string) :
  result_of (post_authenticate rt req w)
    = Returned {| status := 200; res_body := Token t |} ->
  exists a s h k,
    hd_error (Admin (db w)) = Some a /\ initialized a = true /\
    password a = Some h /\
    JS.get "password" (req_body req) = JS.str s /\ 8 <= String.length s /\
    bcrypt_compare rt s h = true /\
    usable_key (JWT_SECRET (env w)) = Some k /\ t = jwt_sign rt k (now w).
Proof.
  unfold post_authenticate, Admin_findOne, bcrypt_compare_call, jwt_sign_call.
  destruct w as [e [|] d n en p co tr]; run;
    destruct (JS.get "password" (req_body req)) as [| |b|x|s|xs|props] eqn:V;
    branches; intros H; try discriminate H;
    cbn in H; injection H as <-;
    match goal with
    | L : _ || _ = false, I : negb (initialized ?a) = false,
      P : password ?a = Some ?h, K : usable_key _ = Some ?k |- _ =>
        exists a, s, h, k; apply orb_false_iff in L as [_ L];
        apply Nat.leb_gt in L; repeat split; auto; try lia;
        destruct (initialized a); [reflexivity | discriminate]
    end.
Qed.

(** X2. A token is issued only against the stored hash: a 200 with a token
    means that the record [findOne] returns is initialized, that the password
    sent is a string of at least 8 characters which [bcrypt.compare] accepts
    for the stored hash, and that the token is the one signed now with the
    configured key. *)
Theorem token_only_for_matching_password (req : Request) (w : World) (t : string) :
  result_of (post_authenticate rt req w)
    = Returned {| status := 200; res_body := Token t |} ->
  exists a s h k,
    hd_error (Admin (db w)) = Some a /\ initialized a = true /\
    password a = Some h /\
    JS.get "password" (req_body req) = JS.str s /\ 8 <= String.length s /\
    bcrypt_compare rt s h = true /\
    usable_key (JWT_SECRET (env w)) = Some k /\ t = jwt_sign rt k (now w).
Proof. apply post_authenticate_token. Qed.

(** What the handler answers when the query resolves, by the record found. *)
Lemma post_authenticate_resolved (req : Request) (w : World) (s : string) :
  query_resolves w = true ->
  JS.get "password" (req_body req) = JS.str s -> 8 <= String.length s ->
  result_of (post_authenticate rt req w) =
    match hd_error (Admin (db w)) with
    | None => Returned not_initialized
    | Some a =>
        if initialized a then
          match password a with
          | None => Returned server_error
          | Some h =>
              if bcrypt_compare rt s h then
                match usable_key (JWT_SECRET (env w)) with
                | Some k =>
                    Returned {| status := 200;
                                res_body := Token (jwt_sign rt k (now w)) |}
                | None => Returned server_error
                end
              else Returned {| status := 401; res_body := Message "Invalid password" |}
          end
        else Returned not_initialized
    end.
Proof.
  unfold query_resolves, post_authenticate, Admin_findOne, bcrypt_compare_call,
    jwt_sign_call.
  intros Q V L.
  assert (G : negb (JS.ToBoolean (JS.str s)) || length_lt_8 rt (JS.str s) = false).
  { destruct s as [|c s']; [cbn in L; lia|]. cbn. apply Nat.leb_gt. cbn in L. lia. }
  rewrite V, G.
  destruct w as [e [|] d n en p co tr]; run;
    destruct p as [|[|?] [|[|?] ?]]; cbn in *; try discriminate;
    destruct (hd_error (Admin d)) as [[i [h|] [|]]|]; cbn; try reflexivity;
    destruct (bcrypt_compare rt s h); cbn; try reflexivity;
    destruct (usable_key (JWT_SECRET e)); reflexivity.
Qed.


(** X4. A password that is not a string and passes the validation (a number,
    [true], an array of 8 elements or more) is never matched: once
    [connectDB] has returned, the answer is 401 or 500. *)
Theorem authenticate_non_string_password (req : Request) (w : World) :
  (forall s, JS.get "password" (req_body req) <> JS.str s) ->
  negb (JS.ToBoolean (JS.get "password" (req_body req)))
    || length_lt_8 rt (JS.get "password" (req_body req)) = false ->
  connects w = true ->
  exists resp,
    result_of (post_authenticate rt req w) = Returned resp /\
    (resp = not_initialized \/ resp = server_error).
Proof.
  unfold connects, post_authenticate, Admin_findOne, bcrypt_compare_call, jwt_sign_call.
  intros NS V C. rewrite V.
  destruct (JS.get "password" (req_body req)) as [| |b|x|s|xs|props] eqn:G;
    try (exfalso; now apply (NS s));
    destruct w as [e [|] d n en p co tr]; run; branches;
    try congruence;
    eexists; (split; [reflexivity|]); auto.
Qed.


End Authentication.

(** The bootstrapped example store and its secret. *)
Lemma token_only_for_matching_password_witness :
  exists a s h k,
    hd_error (Admin (db Example.bootstrapped)) = Some a /\ initialized a = true /\
    password a = Some h /\
    JS.str "correct horse" = JS.str s /\ 8 <= String.length s /\
    bcrypt_compare Example.runtime s h = true /\
    usable_key (JWT_SECRET (env Example.bootstrapped)) = Some k /\
    "admin.signing-key" = jwt_sign Example.runtime k (now Example.bootstrapped).
Proof.
  exact (token_only_for_matching_password Example.runtime
           {| authorization := None;
              req_body := [("password", JS.str "correct horse")] |}
           Example.bootstrapped "admin.signing-key" eq_refl).
Defined.

Lemma example_bcrypt_law (data : string) (rounds salt : nat) :
  bcrypt_compare Example.runtime data (bcrypt_hash Example.runtime data rounds salt) = true.
Proof. cbn. apply String.eqb_refl. Qed.


(** The number 12345678 as a password, against the bootstrapped store. *)
Lemma authenticate_non_string_password_witness :
  exists resp,
    result_of (post_authenticate Example.runtime
                 {| authorization := None;
                    req_body := [("password", JS.number 12345678%float)] |}
                 Example.bootstrapped) = Returned resp /\
    (resp = not_initialized \/ resp = server_error).
Proof.
  refine (authenticate_non_string_password Example.runtime
            {| authorization := None;
               req_body := [("password", JS.number 12345678%float)] |}
            Example.bootstrapped _ eq_refl eq_refl).
  intros s. discriminate.
Defined.


(** ** The guard and the protected routes *)
Section Guard.

Variable rt : Runtime.

Lemma split_first_word (a b : string) :
  has_space a = false ->
  JS.split " " (String.append a (String " " b)) = a :: JS.split " " b.
Proof.
  induction a as [|c a IH]; cbn; [reflexivity|].
  intros H. apply orb_false_iff in H as [Hc Ha].
  rewrite Hc, (IH Ha). reflexivity.
Qed.

Lemma bearer_token_second_word (scheme token : string)
    (fields : list (string * JS.Value)) :
  has_space scheme = false -> has_space token = false ->
  bearer_token (with_header (String.append scheme (String " " token)) fields)
    = Some token /\
  forall rest,
    bearer_token
      (with_header (String.append scheme
                      (String " " (String.append token (String " " rest)))) fields)
      = Some token.
Proof.
  intros S T. unfold bearer_token, with_header. cbn. split.
  - rewrite (split_first_word _ _ S), (split_no_space _ T). reflexivity.
  - intros rest. rewrite (split_first_word _ _ S), (split_first_word _ _ T).
    reflexivity.
Qed.

(** X6. The guard reads the second word of the header and nothing else: for
    a first word and a token without spaces, the token is extracted whatever
    the first word is ([Bearer] or not) and whatever follows the token; if
    the token verifies, the wrapped handler runs. *)
Theorem guard_reads_the_second_word
    (scheme token : string) (fields : list (string * JS.Value)) :
  has_space scheme = false -> has_space token = false ->
  bearer_token (with_header (String.append scheme (String " " token)) fields)
    = Some token /\
  (forall rest,
     bearer_token
       (with_header (String.append scheme
                       (String " " (String.append token (String " " rest)))) fields)
       = Some token) /\
  (forall (w : World) (next : M Response),
     token <> "" -> verifies rt w token = true ->
     authenticateJWT rt
       (with_header (String.append scheme (String " " token)) fields) next w
       = next w).
Proof.
  intros S T. destruct (bearer_token_second_word scheme token fields S T) as [B R].
  split; [exact B|]. split; [exact R|].
  intros w next N V. rewrite authenticateJWT_cases, B.
  destruct token as [|c t]; [contradiction|]. now rewrite V.
Qed.

(** X7. A token that [POST /api/authenticate] has just issued opens the
    protected routes: given that [jwt.verify] accepts, at the time of
    signing, what [jwt.sign] made with the same key, and that the token is
    not empty and holds no space, the guard lets [Bearer <token>] through in
    the world the login left. *)
Theorem issued_token_passes_the_guard
    (req : Request) (w : World) (t : string)
    (fields : list (string * JS.Value)) (next : M Response) :
  (forall k n, jwt_verify rt (jwt_sign rt k n) k n = true) ->
  result_of (post_authenticate rt req w)
    = Returned {| status := 200; res_body := Token t |} ->
  t <> "" -> has_space t = false ->
  authenticateJWT rt (with_header (String.append "Bearer" (String " " t)) fields) next
    (world_after (post_authenticate rt req w))
  = next (world_after (post_authenticate rt req w)) /\
  get_verify_token rt (with_header (String.append "Bearer" (String " " t)) fields)
    (world_after (post_authenticate rt req w))
  = (Returned token_valid, world_after (post_authenticate rt req w)).
Proof.
  intros Law R N T.
  destruct (post_authenticate_token rt req w t R) as (a & s & h & k & _ & _ & _ & _ & _ & _ & K & E).
  destruct (post_authenticate_frame rt req w) as (_ & Ev & Nw).
  assert (V : verifies rt (world_after (post_authenticate rt req w)) t = true).
  { unfold verifies. rewrite Ev, Nw, K, E. apply Law. }
  destruct (bearer_token_second_word "Bearer" t fields eq_refl T) as [B _].
  unfold get_verify_token. rewrite !authenticateJWT_cases, B.
  destruct t as [|c t']; [contradiction|]. rewrite V. now split.
Qed.

Variable new_Date : JS.Value -> JS.Number.

(** X8. No write without a token that verifies: a request that is not
    authenticated gets 401 or 403 from [POST /api/progress-bar] and
    [POST /api/presale-end], and the world is left exactly as it was (no
    connection attempt, no query, no write). *)
Theorem protected_writes_need_a_token (req : Request) (w : World) :
  authenticated rt w req = false ->
  (post_progress_bar rt req w = (Returned unauthorized, w) \/
   post_progress_bar rt req w = (Returned invalid_token, w)) /\
  (post_presale_end new_Date rt req w = (Returned unauthorized, w) \/
   post_presale_end new_Date rt req w = (Returned invalid_token, w)).
Proof.
  unfold authenticated, post_progress_bar, post_presale_end.
  rewrite !authenticateJWT_cases.
  destruct (bearer_token req) as [[|c t]|]; auto.
  intros ->. auto.
Qed.

End Guard.

(** The scheme [Basic] in front of the signed token. *)
Lemma guard_reads_the_second_word_witness :
  authenticateJWT Example.runtime (with_header "Basic admin.signing-key" [])
    (respond 200 (Message "Token valid")) Example.fresh
  = (Returned token_valid, Example.fresh).
Proof.
  refine (proj2 (proj2 (guard_reads_the_second_word Example.runtime
                          "Basic" "admin.signing-key" [] eq_refl eq_refl))
            Example.fresh (respond 200 (Message "Token valid")) _ eq_refl).
  discriminate.
Defined.

(** Login on the bootstrapped example store, then [GET /api/verify-token]. *)
Lemma issued_token_passes_the_guard_witness :
  get_verify_token Example.runtime (with_header "Bearer admin.signing-key" [])
    (world_after (post_authenticate Example.runtime
       {| authorization := None; req_body := [("password", JS.str "correct horse")] |}
       Example.bootstrapped))
  = (Returned token_valid,
     world_after (post_authenticate Example.runtime
       {| authorization := None; req_body := [("password", JS.str "correct horse")] |}
       Example.bootstrapped)).
Proof.
  refine (proj2 (issued_token_passes_the_guard Example.runtime
            {| authorization := None; req_body := [("password", JS.str "correct horse")] |}
            Example.bootstrapped "admin.signing-key" [] (ret token_valid)
            _ eq_refl _ eq_refl)).
  - intros k n. cbn. apply String.eqb_refl.
  - discriminate.
Defined.

(** A forged token, posting a value. *)
Lemma protected_writes_need_a_token_witness :
  post_progress_bar Example.runtime
    (with_header "Bearer forged" [("value", JS.number 42%float)]) Example.fresh
  = (Returned invalid_token, Example.fresh).
Proof.
  destruct (proj1 (protected_writes_need_a_token Example.runtime example_Date
              (with_header "Bearer forged" [("value", JS.number 42%float)])
              Example.fresh eq_refl)) as [H|H].
  - discriminate H.
  - exact H.
Defined.

(** ** Failures of the connection and of the store *)
Section Failures.

Variable rt : Runtime.
Variable new_Date : JS.Value -> JS.Number.

#[local] Arguments clamp : simpl never.

Ltac by_connection w :=
  unfold answers_iff_connected, connects;
  destruct w as [e [|] d n en p co tr]; [|destruct p as [|[|r] p']];
  run; branches; try (eexists; reflexivity); eexists; split; reflexivity.


Ltac rejected_cases w H :=
  unfold fails_with_500, query_rejected, connects in *;
  destruct w as [e c d n en p co tr]; destruct H as [C R]; cbn in C, R;
  destruct c; destruct p as [|[|r] [|[|r'] p']]; cbn in C, R; try congruence;
  injection R as ->; run.

Ltac by_rejection w H :=
  rejected_cases w H;
  (split; [reflexivity | split; [reflexivity | eexists; reflexivity]]).


End Failures.


(** ** The singleton kinds *)
Section SingletonKinds.

Variable rt : Runtime.
Variable new_Date : JS.Value -> JS.Number.

#[local] Arguments clamp : simpl never.

Lemma length_replace_progress (d : ProgressBarDoc) (l : list ProgressBarDoc) :
  List.length (replace_progress d l) = List.length l.
Proof.
  induction l as [|x l IH]; cbn; [reflexivity|].
  destruct (progress_id x =? progress_id d)%nat; cbn; auto.
Qed.

Lemma length_replace_presale (d : PresaleEndDoc) (l : list PresaleEndDoc) :
  List.length (replace_presale d l) = List.length l.
Proof.
  induction l as [|x l IH]; cbn; [reflexivity|].
  destruct (presale_id x =? presale_id d)%nat; cbn; auto.
Qed.

Lemma length_replace_admin (d : AdminDoc) (l : list AdminDoc) :
  List.length (replace_admin d l) = List.length l.
Proof.
  induction l as [|x l IH]; cbn; [reflexivity|].
  destruct (admin_id x =? admin_id d)%nat; cbn; auto.
Qed.

Lemma hd_error_nil {A : Type} (l : list A) : hd_error l = None -> l = [].
Proof. destruct l; [reflexivity | discriminate]. Qed.

(** The collection was empty and a record was appended. *)
Ltac created :=
  try match goal with
      | H : hd_error _ = None |- _ =>
          apply hd_error_nil in H; rewrite H; right; split; reflexivity
      end.

(** X11. [POST /api/progress-bar] writes one collection and keeps it a
    singleton: for every request and world the three other collections are
    as before, and the number of progress records is unchanged, or the
    collection was empty and now holds one record. *)
Theorem progress_bar_stays_single (req : Request) (w : World) :
  Admin (db (world_after (post_progress_bar rt req w))) = Admin (db w) /\
  PresaleEnd (db (world_after (post_progress_bar rt req w))) = PresaleEnd (db w) /\
  WalletAddress (db (world_after (post_progress_bar rt req w))) = WalletAddress (db w) /\
  (List.length (ProgressBar (db (world_after (post_progress_bar rt req w))))
     = List.length (ProgressBar (db w)) \/
   ProgressBar (db w) = [] /\
   List.length (ProgressBar (db (world_after (post_progress_bar rt req w)))) = 1).
Proof.
  unfold post_progress_bar. rewrite authenticateJWT_cases.
  destruct (bearer_token req) as [[|c t]|]; auto.
  destruct (verifies rt w (String c t)); auto.
  unfold progress_bar_handler, ProgressBar_findOne, ProgressBar_save, ProgressBar_create.
  destruct w as [e [|] d n en p co tr]; run; branches; repeat split; auto;
    try (left; apply length_replace_progress); created.
Qed.

(** X12. [POST /api/presale-end] likewise: the three other collections are
    as before, and the number of presale records is unchanged, or the
    collection was empty and now holds one record. *)
Theorem presale_end_stays_single (req : Request) (w : World) :
  Admin (db (world_after (post_presale_end new_Date rt req w))) = Admin (db w) /\
  ProgressBar (db (world_after (post_presale_end new_Date rt req w)))
    = ProgressBar (db w) /\
  WalletAddress (db (world_after (post_presale_end new_Date rt req w)))
    = WalletAddress (db w) /\
  (List.length (PresaleEnd (db (world_after (post_presale_end new_Date rt req w))))
     = List.length (PresaleEnd (db w)) \/
   PresaleEnd (db w) = [] /\
   List.length (PresaleEnd (db (world_after (post_presale_end new_Date rt req w)))) = 1).
Proof.
  unfold post_presale_end. rewrite authenticateJWT_cases.
  destruct (bearer_token req) as [[|c t]|]; auto.
  destruct (verifies rt w (String c t)); auto.
  unfold presale_end_handler, PresaleEnd_findOne, PresaleEnd_save, PresaleEnd_create.
  destruct w as [e [|] d n en p co tr]; run; branches; repeat split; auto;
    try (left; apply length_replace_presale); created.
Qed.

(** X13. [GET /api/init-admin] likewise for the admin record: the three other
    collections are as before, and the number of admin records is unchanged,
    or the collection was empty and now holds one record. *)
Theorem init_admin_stays_single (req : Request) (w : World) :
  PresaleEnd (db (world_after (get_init_admin rt req w))) = PresaleEnd (db w) /\
  ProgressBar (db (world_after (get_init_admin rt req w))) = ProgressBar (db w) /\
  WalletAddress (db (world_after (get_init_admin rt req w))) = WalletAddress (db w) /\
  (List.length (Admin (db (world_after (get_init_admin rt req w))))
     = List.length (Admin (db w)) \/
   Admin (db w) = [] /\
   List.length (Admin (db (world_after (get_init_admin rt req w)))) = 1).
Proof.
  unfold get_init_admin, initializeAdmin, Admin_findOne, Admin_save, Admin_create,
    bcrypt_hash_call.
  destruct w as [e [|] d n en p co tr]; run; branches; repeat split; auto;
    try (left; apply length_replace_admin); created.
Qed.

(** What the two reads answer when the query resolves. *)
Lemma get_progress_bar_resolved (req : Request) (w : World) :
  query_resolves w = true ->
  result_of (get_progress_bar req w) =
    Returned match latest progress_createdAt (ProgressBar (db w)) with
             | Some r => {| status := 200; res_body := Document (ProgressBarRecord r) |}
             | None => no_progress_bar
             end.
Proof.
  unfold query_resolves, get_progress_bar, ProgressBar_findOne_latest.
  destruct w as [e [|] d n en p co tr]; run;
    destruct p as [|[|?] [|[|?] ?]]; cbn in *; try discriminate;
    destruct (latest progress_createdAt (ProgressBar d)); reflexivity.
Qed.

Lemma get_presale_end_resolved (req : Request) (w : World) :
  query_resolves w = true ->
  result_of (get_presale_end req w) =
    Returned match latest presale_createdAt (PresaleEnd (db w)) with
             | Some r => {| status := 200; res_body := Document (PresaleEndRecord r) |}
             | None => no_presale_end
             end.
Proof.
  unfold query_resolves, get_presale_end, PresaleEnd_findOne_latest.
  destruct w as [e [|] d n en p co tr]; run;
    destruct p as [|[|?] [|[|?] ?]]; cbn in *; try discriminate;
    destruct (latest presale_createdAt (PresaleEnd d)); reflexivity.
Qed.

Lemma presale_end_handler_saves (req : Request) (w : World) :
  healthy w = true ->
  JS.ToBoolean (JS.get "endDateTime" (req_body req)) = true ->
  exists record,
    result_of (presale_end_handler new_Date req w) = Returned (presale_saved record) /\
    PresaleEnd (db (world_after (presale_end_handler new_Date req w)))
      = record :: tl (PresaleEnd (db w)) /\
    endDateTime record = new_Date (JS.get "endDateTime" (req_body req)) /\
    presale_createdAt record
      = match hd_error (PresaleEnd (db w)) with
        | Some r => presale_createdAt r
        | None => now w
        end.
Proof.
  unfold healthy, presale_end_handler, PresaleEnd_findOne, PresaleEnd_save,
    PresaleEnd_create.
  destruct w as [e c d n en p co tr]; cbn. intros H U. rewrite U. run.
  destruct (PresaleEnd d) as [|r rest] eqn:E;
    destruct c; cbn in *; pop; rewrite ?E; cbn; pop; cbn; rewrite ?E; cbn;
    rewrite ?Nat.eqb_refl; eexists; repeat split.
Qed.

Lemma progress_bar_handler_keeps_age (req : Request) (w : World) :
  healthy w = true ->
  JS.is_undefined (JS.get "value" (req_body req)) = false ->
  exists record,
    result_of (progress_bar_handler rt req w) = Returned (progress_saved record) /\
    ProgressBar (db (world_after (progress_bar_handler rt req w)))
      = record :: tl (ProgressBar (db w)) /\
    value record = clamp (ToNumber rt (JS.get "value" (req_body req))) /\
    progress_createdAt record
      = match hd_error (ProgressBar (db w)) with
        | Some r => progress_createdAt r
        | None => now w
        end.
Proof.
  unfold healthy, progress_bar_handler, ProgressBar_findOne, ProgressBar_save,
    ProgressBar_create.
  destruct w as [e c d n en p co tr]; cbn. intros H U. rewrite U. run.
  destruct (ProgressBar d) as [|r rest] eqn:E;
    destruct c; cbn in *; pop; rewrite ?E; cbn; pop; cbn; rewrite ?E; cbn;
    rewrite ?Nat.eqb_refl; eexists; repeat split.
Qed.

Lemma tl_of_short {A : Type} (l : list A) : List.length l <= 1 -> tl l = [].
Proof. destruct l as [|x [|y l]]; cbn; auto; lia. Qed.


Lemma latest_In {A : Type} (age : A -> nat) (l : list A) (z : A) :
  latest age l = Some z -> In z l.
Proof.
  revert z. induction l as [|a l IH]; cbn [latest In]; [discriminate|].
  intros z. destruct (latest age l) as [z'|].
  - destruct (age a <? age z')%nat; intros E; injection E as E; subst;
      [right; now apply IH | now left].
  - intros E. injection E as E. subst. now left.
Qed.

Lemma latest_behind {A : Type} (age : A -> nat) (x x' y : A) (rest : list A) :
  latest age (x :: rest) = Some y -> age x < age y -> age x' = age x ->
  latest age (x' :: rest) = Some y /\ In y rest.
Proof.
  cbn [latest]. intros L Lt E. destruct (latest age rest) as [z|] eqn:Z.
  - apply latest_In in Z. destruct (age x <? age z)%nat eqn:C.
    + injection L as <-. rewrite E, C. auto.
    + injection L as <-. lia.
  - injection L as <-. lia.
Qed.



(** X17. A missing date is refused before the store is touched: for an
    authenticated request whose [endDateTime] is falsy (absent, [null], the
    empty string, [false], the number 0), the handler does nothing beyond
    [connectDB], and answers 400 once [connectDB] has returned. *)
Theorem presale_end_requires_a_date (req : Request) (w : World) :
  authenticated rt w req = true ->
  JS.ToBoolean (JS.get "endDateTime" (req_body req)) = false ->
  world_after (post_presale_end new_Date rt req w) = world_after (connectDB w) /\
  (connects w = true ->
   result_of (post_presale_end new_Date rt req w)
     = Returned {| status := 400; res_body := Message "endDateTime is required" |}).
Proof.
  intros A F. unfold post_presale_end.
  rewrite (authenticateJWT_authenticated rt req _ w A).
  unfold presale_end_handler, world_after, result_of, bind. rewrite F. cbn [negb].
  split.
  - destruct (connectDB w) as [[[]|err] w1]; reflexivity.
  - intros C. destruct (connectDB_returns w C) as (w1 & E & _). now rewrite E.
Qed.

End SingletonKinds.




(** The date 0, the epoch, counts as missing. *)
Lemma presale_end_requires_a_date_witness :
  result_of (post_presale_end example_Date Example.runtime
               (Example.admin_request [("endDateTime", JS.number 0%float)])
               Example.fresh)
    = Returned {| status := 400; res_body := Message "endDateTime is required" |}.
Proof.
  exact (proj2 (presale_end_requires_a_date Example.runtime example_Date
                  (Example.admin_request [("endDateTime", JS.number 0%float)])
                  Example.fresh eq_refl eq_refl) eq_refl).
Defined.

(** ** The wallet addresses, further *)
Section WalletRegister.

Variable rt : Runtime.

Lemma find_none_not_in (a : string) (l : list WalletAddressDoc) :
  find (fun d => String.eqb (address d) a) l = None -> ~ In a (map address l).
Proof.
  induction l as [|x l IH]; cbn; [tauto|].
  destruct (String.eqb (address x) a) eqn:E; [discriminate|].
  intros F [H|H]; [|now apply IH].
  apply String.eqb_neq in E. contradiction.
Qed.

(** X18. The register is append-only.  For every request and world,
    [POST /api/wallet-address] leaves the three other collections as they
    were and keeps every stored wallet record in place: the collection
    afterwards is the collection before, followed by at most one record. *)
Theorem wallet_register_is_append_only (req : Request) (w : World) :
  Admin (db (world_after (post_wallet_address rt req w))) = Admin (db w) /\
  PresaleEnd (db (world_after (post_wallet_address rt req w))) = PresaleEnd (db w) /\
  ProgressBar (db (world_after (post_wallet_address rt req w))) = ProgressBar (db w) /\
  exists added,
    WalletAddress (db (world_after (post_wallet_address rt req w)))
      = WalletAddress (db w) ++ added /\
    List.length added <= 1.
Proof.
  unfold post_wallet_address, call_toLowerCase, WalletAddress_findOne,
    WalletAddress_create.
  destruct w as [e [|] d n en p co tr]; run; branches; repeat split; auto;
    first [ exists []; rewrite app_nil_r; split; [reflexivity | cbn; lia]
          | eexists; split; [reflexivity | cbn; lia] ].
Qed.

(** X19. Stored addresses stay distinct: if no two wallet records hold the
    same address, the same is true after [POST /api/wallet-address], for
    every request and however the calls settle. *)
Theorem wallet_addresses_stay_distinct (req : Request) (w : World) :
  NoDup (map address (WalletAddress (db w))) ->
  NoDup (map address (WalletAddress (db (world_after (post_wallet_address rt req w))))).
Proof.
  unfold post_wallet_address, call_toLowerCase, WalletAddress_findOne,
    WalletAddress_create.
  intros N.
  destruct w as [e [|] d n en p co tr]; run; branches; auto;
    rewrite map_app; cbn;
    (apply NoDup_app; [assumption | repeat constructor; cbn; tauto |]);
    intros a I [<-|[]];
    match goal with
    | F : find _ _ = None |- _ => now apply (find_none_not_in _ _ F)
    end.
Qed.

Lemma insert_newest_perm (d : WalletAddressDoc) (l : list WalletAddressDoc) :
  Permutation (insert_newest d l) (d :: l).
Proof.
  induction l as [|x l IH]; cbn [insert_newest]; [reflexivity|].
  destruct (wallet_createdAt x <=? wallet_createdAt d)%nat; [reflexivity|].
  rewrite IH. apply perm_swap.
Qed.

Lemma newest_first_perm (l : list WalletAddressDoc) :
  Permutation (newest_first l) l.
Proof.
  induction l as [|d l IH]; cbn [newest_first]; [reflexivity|].
  rewrite insert_newest_perm. now constructor.
Qed.

Lemma insert_newest_sorted (d : WalletAddressDoc) (l : list WalletAddressDoc) :
  StronglySorted not_older l -> StronglySorted not_older (insert_newest d l).
Proof.
  induction 1 as [|x l S IH F]; cbn [insert_newest].
  - repeat constructor.
  - destruct (wallet_createdAt x <=? wallet_createdAt d)%nat eqn:C.
    + apply Nat.leb_le in C. constructor; [now constructor|].
      constructor; [exact C|].
      rewrite Forall_forall in *. intros y I. specialize (F y I).
      unfold not_older in *. lia.
    + apply Nat.leb_gt in C. constructor; [exact IH|].
      rewrite Forall_forall in *. intros y I.
      apply (Permutation_in _ (insert_newest_perm d l)) in I.
      destruct I as [<-|I]; [unfold not_older; lia | now apply F].
Qed.

Lemma newest_first_sorted (l : list WalletAddressDoc) :
  StronglySorted not_older (newest_first l).
Proof.
  induction l as [|d l IH]; cbn [newest_first]; [constructor|].
  now apply insert_newest_sorted.
Qed.

Lemma get_wallet_address_resolved (req : Request) (w : World) :
  query_resolves w = true ->
  result_of (get_wallet_address req w)
    = Returned (Records (newest_first (WalletAddress (db w)))) /\
  db (world_after (get_wallet_address req w)) = db w.
Proof.
  unfold query_resolves, get_wallet_address, WalletAddress_find_newest_first.
  destruct w as [e [|] d n en p co tr]; run;
    destruct p as [|[|?] [|[|?] ?]]; cbn in *; try discriminate; now split.
Qed.

(** X20. [GET /api/wallet-address], once [connectDB] has returned and the
    query has resolved, answers every stored record exactly once, newest
    first, and leaves the store as it was. *)
Theorem wallet_listing_is_newest_first (req : Request) (w : World) :
  query_resolves w = true ->
  exists records,
    result_of (get_wallet_address req w) = Returned (Records records) /\
    Permutation records (WalletAddress (db w)) /\
    StronglySorted not_older records /\
    db (world_after (get_wallet_address req w)) = db w.
Proof.
  intros Q. destruct (get_wallet_address_resolved req w Q) as [R D].
  exists (newest_first (WalletAddress (db w))).
  repeat split; auto using newest_first_perm, newest_first_sorted.
Qed.

(** After a post whose calls resolve, the address is stored in lower case. *)
Lemma post_wallet_address_stores (req : Request) (w : World) (a : string) :
  healthy w = true ->
  JS.get "address" (req_body req) = JS.str a -> a <> "" ->
  exists d,
    In d (WalletAddress (db (world_after (post_wallet_address rt req w)))) /\
    address d = toLowerCase rt a.
Proof.
  intros H B N.
  destruct (find (fun d => String.eqb (address d) (toLowerCase rt a))
              (WalletAddress (db w))) as [x|] eqn:F.
  - destruct (post_wallet_address_conflicts rt req w a x H B N F) as [_ ->].
    apply find_some in F as [I E]. apply String.eqb_eq in E. now exists x.
  - destruct (post_wallet_address_creates rt req w a H B N F) as [_ ->].
    eexists. split; [apply in_or_app; right; left; reflexivity | reflexivity].
Qed.

(** X21. Post, then list.  After a [POST /api/wallet-address] with a
    non-empty address string whose calls resolve (whether it answered 200 or
    409), the list answered by [GET /api/wallet-address] holds a record with
    the lower-case address. *)
Theorem wallet_posted_then_listed (req req' : Request) (w w' : World) (a : string) :
  healthy w = true ->
  JS.get "address" (req_body req) = JS.str a -> a <> "" ->
  db w' = db (world_after (post_wallet_address rt req w)) ->
  query_resolves w' = true ->
  exists records d,
    result_of (get_wallet_address req' w') = Returned (Records records) /\
    In d records /\ address d = toLowerCase rt a.
Proof.
  intros H B N D Q.
  destruct (post_wallet_address_stores req w a H B N) as (d & I & E).
  destruct (get_wallet_address_resolved req' w' Q) as [R _].
  exists (newest_first (WalletAddress (db w'))), d. repeat split; auto.
  apply (Permutation_in _ (Permutation_sym (newest_first_perm _))).
  now rewrite D.
Qed.

(** X22. An address that is not a string (a number, [true], an array, an
    object) passes the presence check and fails inside the [try]: once
    [connectDB] has returned the answer is the generic 500, and the store is
    neither queried nor written. *)
Theorem wallet_address_must_be_a_string (req : Request) (w : World) :
  JS.ToBoolean (JS.get "address" (req_body req)) = true ->
  (forall s, JS.get "address" (req_body req) <> JS.str s) ->
  connects w = true ->
  result_of (post_wallet_address rt req w) = Returned server_error /\
  db (world_after (post_wallet_address rt req w)) = db w /\
  trace (world_after (post_wallet_address rt req w)) = trace (world_after (connectDB w)).
Proof.
  unfold connects, post_wallet_address, call_toLowerCase.
  intros T NS C. rewrite T.
  destruct (JS.get "address" (req_body req)) as [| |b|x|s|xs|props];
    try (exfalso; now apply (NS s));
    destruct w as [e [|] d n en p co tr]; run;
    try (destruct p as [|[|?] ?]; cbn in *; try discriminate);
    repeat split; reflexivity.
Qed.

End WalletRegister.

(** The example store with two wallets: a third is appended. *)
Lemma wallet_addresses_stay_distinct_witness :
  NoDup (map address (WalletAddress (db (world_after
    (post_wallet_address Example.runtime (Example.wallet_request "0xCC")
       example_wallets))))).
Proof.
  refine (wallet_addresses_stay_distinct Example.runtime
            (Example.wallet_request "0xCC") example_wallets _).
  cbn. repeat constructor; cbn; intuition discriminate.
Defined.

(** The example store with two wallets, listed. *)
Lemma wallet_listing_is_newest_first_witness :
  exists records,
    result_of (get_wallet_address Example.plain_request example_wallets)
      = Returned (Records records) /\
    Permutation records (WalletAddress (db example_wallets)) /\
    StronglySorted not_older records /\
    db (world_after (get_wallet_address Example.plain_request example_wallets))
      = db example_wallets.
Proof.
  exact (wallet_listing_is_newest_first Example.plain_request example_wallets eq_refl).
Defined.

(** [0xABC] posted, then listed as [0xabc]. *)
Lemma wallet_posted_then_listed_witness :
  exists records d,
    result_of (get_wallet_address Example.plain_request
                 (world_after (post_wallet_address Example.runtime
                    (Example.wallet_request "0xABC") Example.fresh)))
      = Returned (Records records) /\
    In d records /\ address d = "0xabc".
Proof.
  refine (wallet_posted_then_listed Example.runtime (Example.wallet_request "0xABC")
            Example.plain_request Example.fresh
            (world_after (post_wallet_address Example.runtime
               (Example.wallet_request "0xABC") Example.fresh))
            "0xABC" eq_refl eq_refl _ eq_refl eq_refl).
  discriminate.
Defined.

(** The number 7 as an address. *)
Lemma wallet_address_must_be_a_string_witness :
  result_of (post_wallet_address Example.runtime
               {| authorization := None; req_body := [("address", JS.number 7%float)] |}
               Example.fresh)
    = Returned server_error.
Proof.
  refine (proj1 (wallet_address_must_be_a_string Example.runtime
                   {| authorization := None;
                      req_body := [("address", JS.number 7%float)] |}
                   Example.fresh eq_refl _ eq_refl)).
  intros s. discriminate.
Defined.

(** ** The bootstrap, further *)
Section Bootstrap.

Variable rt : Runtime.

Lemma get_init_admin_world (req : Request) (w : World) :
  connects w = true ->
  result_of (get_init_admin rt req w) = Returned acknowledged /\
  world_after (get_init_admin rt req w) = world_after (initializeAdmin rt w).
Proof.
  intros C. destruct (initializeAdmin_returns rt w C) as (w' & E).
  rewrite get_init_admin_after, E. now split.
Qed.

Lemma secret_long_enough (e : Env) :
  secret_too_short e = false ->
  exists secret, ADMIN_PASSWORD e = Some secret /\ 8 <= String.length secret.
Proof.
  unfold secret_too_short. destruct (ADMIN_PASSWORD e) as [secret|]; [|discriminate].
  intros L. apply Nat.ltb_ge in L. now exists secret.
Qed.

(** X23. Bootstrapping twice changes nothing the second time: after a
    [GET /api/init-admin] whose calls resolve, a second one in the same
    environment, its calls resolving too, answers 200 and leaves the store
    exactly as the first left it. *)
Theorem bootstrap_twice (req req' : Request) (w w' : World) :
  healthy w = true -> healthy w' = true ->
  db w' = db (world_after (get_init_admin rt req w)) -> env w' = env w ->
  result_of (get_init_admin rt req' w') = Returned acknowledged /\
  db (world_after (get_init_admin rt req' w')) = db w'.
Proof.
  intros H H' D E.
  destruct (get_init_admin_world req w (healthy_connects w H)) as [_ W].
  destruct (get_init_admin_world req' w' (healthy_connects w' H')) as [R' W'].
  split; [exact R'|]. rewrite W'. rewrite W in D.
  destruct (secret_too_short (env w)) eqn:S.
  - apply initializeAdmin_short_secret_db. now rewrite E.
  - destruct (secret_long_enough _ S) as (secret & P & L).
    destruct (Admin (db w)) as [|existing others] eqn:A.
    + destruct (initializeAdmin_creates rt w secret H A P L) as [_ A1].
      rewrite <- D in A1.
      eapply proj2, initializeAdmin_initialized;
        [exact H' | rewrite A1; reflexivity | reflexivity].
    + destruct (initialized existing) eqn:I.
      * destruct (initializeAdmin_initialized rt w existing H) as [_ D1];
          [now rewrite A | exact I |].
        rewrite D1 in D.
        eapply proj2, initializeAdmin_initialized;
          [exact H' | rewrite D, A; reflexivity | exact I].
      * destruct (initializeAdmin_overwrites rt w existing others secret H A I P L)
          as [_ A1].
        rewrite <- D in A1.
        eapply proj2, initializeAdmin_initialized;
        [exact H' | rewrite A1; reflexivity | reflexivity].
Qed.

(** X24. A failure of the store during the bootstrap is logged and swallowed:
    when [connectDB] returns and the query is rejected, [GET /api/init-admin]
    still answers 200, the store is as before, and the last console line is
    [Error initializing admin:] followed by the reason. *)
Theorem bootstrap_failure_is_logged (req : Request) (w : World) (reason : string) :
  query_rejected w reason ->
  result_of (get_init_admin rt req w) = Returned acknowledged /\
  db (world_after (get_init_admin rt req w)) = db w /\
  exists lines,
    console (world_after (get_init_admin rt req w))
      = lines ++ [String.append "Error initializing admin: " reason].
Proof.
  unfold query_rejected, connects, get_init_admin, initializeAdmin, Admin_findOne.
  intros [C R].
  destruct w as [e c d n en p co tr]; cbn in C, R;
    destruct c; destruct p as [|[|r] [|[|r'] p']]; cbn in C, R; try congruence;
    injection R as ->; run;
    (split; [reflexivity | split; [reflexivity | eexists; reflexivity]]).
Qed.

End Bootstrap.

(** The empty example store, bootstrapped twice. *)
Lemma bootstrap_twice_witness :
  db (world_after (get_init_admin Example.runtime Example.plain_request
        (set_pending []
           (world_after (get_init_admin Example.runtime Example.plain_request
                           Example.fresh)))))
  = db (world_after (get_init_admin Example.runtime Example.plain_request Example.fresh)).
Proof.
  exact (proj2 (bootstrap_twice Example.runtime Example.plain_request
                  Example.plain_request Example.fresh
                  (set_pending []
                     (world_after (get_init_admin Example.runtime Example.plain_request
                                     Example.fresh)))
                  eq_refl eq_refl eq_refl eq_refl)).
Defined.

(** The store answers the dial and then times out. *)
Lemma bootstrap_failure_is_logged_witness :
  result_of (get_init_admin Example.runtime Example.plain_request
               (set_pending [Resolves; Rejects "timed out"] Example.fresh))
    = Returned acknowledged /\
  console (world_after (get_init_admin Example.runtime Example.plain_request
                          (set_pending [Resolves; Rejects "timed out"] Example.fresh)))
    = ["MongoDB Connected"; "Error initializing admin: timed out"].
Proof.
  split.
  - exact (proj1 (bootstrap_failure_is_logged Example.runtime Example.plain_request
                    (set_pending [Resolves; Rejects "timed out"] Example.fresh)
                    "timed out" (conj eq_refl eq_refl))).
  - reflexivity.
Defined.

(** ** The clamp, further *)
Section ClampAgain.

(** X25. Clamping is idempotent: for every number, NaN included, clamping
    what the clamp returned gives it back, so posting a value read from the
    store stores it unchanged. *)
Theorem clamp_idempotent (x : JS.Number) : clamp (clamp x) = clamp x.
Proof.
  destruct (is_nan x) eqn:N.
  - rewrite (clamp_nan x N). reflexivity.
  - destruct (x <? 0)%float eqn:Lo; [rewrite (clamp_below x Lo); reflexivity|].
    destruct (100 <? x)%float eqn:Hi; [rewrite (clamp_above x Hi); reflexivity|].
    assert (H0 : (0 <=? x)%float = true) by now apply not_ltb_leb.
    assert (H1 : (x <=? 100)%float = true) by now apply not_ltb_leb.
    destruct (clamp_within x H0 H1) as [E _].
    destruct (0 <? x)%float; rewrite E; [exact E | reflexivity].
Qed.

End ClampAgain.
